(** * Rate-limited key vendor and device authenticator

    A shallow embedding of [functions/ai-proxy/main.py] and of the two
    [device-auth/main.py] cloud functions, with the properties of the
    quota check, the pooled-key selection, the usage tracking and the
    HTTP handlers that the design document states for them. *)

From Stdlib Require Import ZArith Lia List Ascii String Bool Sorted.
From stdpp Require Import base option list gmap strings pretty.

Import ListNotations.
Local Open Scope string_scope.
Local Open Scope list_scope.
Local Open Scope Z_scope.

(** ** SHA-256 ([hashlib.sha256]), on bytes held as [Z] in [0, 256) *)

Module SHA256.

Definition w32 (x : Z) : Z := x mod 2 ^ 32.
Definition add32 (x y : Z) : Z := w32 (x + y).
Definition rotr (n x : Z) : Z :=
  Z.lor (Z.shiftr x n) (w32 (Z.shiftl x (32 - n))).
Definition shr (n x : Z) : Z := Z.shiftr x n.
Definition not32 (x : Z) : Z := Z.lxor x (2 ^ 32 - 1).

Definition Ch (x y z : Z) : Z := Z.lxor (Z.land x y) (Z.land (not32 x) z).
Definition Maj (x y z : Z) : Z :=
  Z.lxor (Z.lxor (Z.land x y) (Z.land x z)) (Z.land y z).
Definition bsig0 (x : Z) : Z := Z.lxor (Z.lxor (rotr 2 x) (rotr 13 x)) (rotr 22 x).
Definition bsig1 (x : Z) : Z := Z.lxor (Z.lxor (rotr 6 x) (rotr 11 x)) (rotr 25 x).
Definition ssig0 (x : Z) : Z := Z.lxor (Z.lxor (rotr 7 x) (rotr 18 x)) (shr 3 x).
Definition ssig1 (x : Z) : Z := Z.lxor (Z.lxor (rotr 17 x) (rotr 19 x)) (shr 10 x).

(** The round constants are the first 32 bits of the fractional parts of
    the cube roots of the first 64 primes; the initial state is the same
    for the square roots of the first 8. *)
Definition primes64 : list Z :=
  [2; 3; 5; 7; 11; 13; 17; 19; 23; 29; 31; 37; 41; 43; 47; 53;
   59; 61; 67; 71; 73; 79; 83; 89; 97; 101; 103; 107; 109; 113; 127; 131;
   137; 139; 149; 151; 157; 163; 167; 173; 179; 181; 191; 193; 197; 199;
   211; 223; 227; 229; 233; 239; 241; 251; 257; 263; 269; 271; 277; 281;
   283; 293; 307; 311].

(** Integer cube root, one bit at a time from bit [k - 1] down. *)
Fixpoint icbrt_bits (k : nat) (n r : Z) : Z :=
  match k with
  | O => r
  | S k' =>
      let c := r + 2 ^ Z.of_nat k' in
      icbrt_bits k' n (if c * c * c <=? n then c else r)
  end.
Definition icbrt (n : Z) : Z := icbrt_bits 40 n 0.

Definition K : list Z :=
  Eval vm_compute in map (fun p => w32 (icbrt (p * 2 ^ 96))) primes64.
Definition H0 : list Z :=
  Eval vm_compute in map (fun p => w32 (Z.sqrt (p * 2 ^ 64))) (firstn 8 primes64).

(** Padding: 0x80, zeros up to 56 mod 64, then the bit length on 8 bytes. *)
Fixpoint be_bytes (k : nat) (x : Z) : list Z :=
  match k with
  | O => []
  | S k' => (Z.shiftr x (8 * Z.of_nat k')) mod 256 :: be_bytes k' x
  end.

Definition pad (msg : list Z) : list Z :=
  let len := Z.of_nat (length msg) in
  let zeros := Z.to_nat ((55 - len) mod 64) in
  msg ++ [128] ++ repeat 0 zeros ++ be_bytes 8 (8 * len).

Fixpoint be_words (k : nat) (bs : list Z) : list Z :=
  match k with
  | O => []
  | S k' =>
      match bs with
      | b0 :: b1 :: b2 :: b3 :: rest =>
          (b0 * 2 ^ 24 + b1 * 2 ^ 16 + b2 * 2 ^ 8 + b3) :: be_words k' rest
      | _ => []
      end
  end.

(** Message schedule: [W] is kept newest first. *)
Fixpoint schedule (k : nat) (W : list Z) : list Z :=
  match k with
  | O => W
  | S k' =>
      let nth' i := nth i W 0 in
      schedule k'
        (add32 (add32 (ssig1 (nth' 1%nat)) (nth' 6%nat))
               (add32 (ssig0 (nth' 14%nat)) (nth' 15%nat)) :: W)
  end.

Record state := State {
  sa : Z; sb : Z; sc : Z; sd : Z; se : Z; sf : Z; sg : Z; sh : Z }.

Definition round (s : state) (kw : Z * Z) : state :=
  let '(k, w) := kw in
  let t1 := add32 (add32 (add32 (add32 (sh s) (bsig1 (se s)))
                                (Ch (se s) (sf s) (sg s))) k) w in
  let t2 := add32 (bsig0 (sa s)) (Maj (sa s) (sb s) (sc s)) in
  State (add32 t1 t2) (sa s) (sb s) (sc s) (add32 (sd s) t1) (se s) (sf s) (sg s).

Definition add_state (s t : state) : state :=
  State (add32 (sa s) (sa t)) (add32 (sb s) (sb t)) (add32 (sc s) (sc t))
        (add32 (sd s) (sd t)) (add32 (se s) (se t)) (add32 (sf s) (sf t))
        (add32 (sg s) (sg t)) (add32 (sh s) (sh t)).

Definition compress (s : state) (block : list Z) : state :=
  let W := rev (schedule 48 (rev (be_words 16 block))) in
  add_state s (fold_left round (combine K W) s).

Fixpoint blocks (k : nat) (s : state) (bs : list Z) : state :=
  match k with
  | O => s
  | S k' => blocks k' (compress s (firstn 64 bs)) (skipn 64 bs)
  end.

Definition init : state :=
  match H0 with
  | [a; b; c; d; e; f; g; h] => State a b c d e f g h
  | _ => State 0 0 0 0 0 0 0 0
  end.

Definition digest (msg : list Z) : state :=
  let p := pad msg in
  blocks (Nat.div (length p) 64) init p.

Definition hex_digit (d : Z) : ascii :=
  if d <? 10 then ascii_of_nat (Z.to_nat (48 + d))
  else ascii_of_nat (Z.to_nat (87 + d)).

Fixpoint hex_word (k : nat) (x : Z) : string :=
  match k with
  | O => EmptyString
  | S k' => String (hex_digit ((Z.shiftr x (4 * Z.of_nat k')) mod 16)) (hex_word k' x)
  end.

Definition hexdigest (msg : list Z) : string :=
  let s := digest msg in
  String.concat "" (map (hex_word 8)
    [sa s; sb s; sc s; sd s; se s; sf s; sg s; sh s]).

End SHA256.

(** ** Python values: [str], JSON data, truthiness *)

(** A Python [str] is held as a Rocq [string] whose characters are the code
    points below 256 (what a WSGI header value can contain). *)
Definition code (c : ascii) : Z := Z.of_nat (nat_of_ascii c).

(** [str.encode()], UTF-8. *)
Fixpoint encode (s : string) : list Z :=
  match s with
  | EmptyString => []
  | String c rest =>
      let n := code c in
      if n <? 128 then n :: encode rest
      else (192 + n / 64) :: (128 + n mod 64) :: encode rest
  end.

(** JSON data as [request.get_json()] and [response.json()] return it
    (numbers are the integers; Python's [None] is [JNull]). *)
#[warnings="-register-all"]
Inductive json : Type :=
| JNull
| JBool (b : bool)
| JInt (n : Z)
| JStr (s : string)
| JList (l : list json)
| JDict (kv : list (string * json)).

(** Python truthiness: [if not x]. *)
Definition truthy (j : json) : bool :=
  match j with
  | JNull => false
  | JBool b => b
  | JInt n => negb (n =? 0)
  | JStr s => negb (String.eqb s "")
  | JList l => match l with [] => false | _ => true end
  | JDict kv => match kv with [] => false | _ => true end
  end.

(** [d.get(key)] on the entries of a dict. *)
Fixpoint dict_lookup (kv : list (string * json)) (key : string) : option json :=
  match kv with
  | [] => None
  | (k, v) :: rest => if String.eqb k key then Some v else dict_lookup rest key
  end.

(** [d.get(key, dflt)]. *)
Definition dict_get (kv : list (string * json)) (key : string) (dflt : json) : json :=
  default dflt (dict_lookup kv key).

(** *** [json.dumps] (default separators, [ensure_ascii]) *)

Definition dquote : string := String (ascii_of_nat 34) "".

Definition u_escape (n : Z) : string :=
  ("\u" ++ SHA256.hex_word 4 n)%string.

Definition escape_char (c : ascii) : string :=
  let n := code c in
  if n =? 34 then ("\" ++ dquote)%string else
  if n =? 92 then "\\" else
  if n =? 8 then "\b" else
  if n =? 12 then "\f" else
  if n =? 10 then "\n" else
  if n =? 13 then "\r" else
  if n =? 9 then "\t" else
  if (n <? 32) || (126 <? n) then u_escape n
  else String c EmptyString.

Fixpoint escape_string (s : string) : string :=
  match s with
  | EmptyString => EmptyString
  | String c rest => (escape_char c ++ escape_string rest)%string
  end.

Definition dumps_str (s : string) : string :=
  (dquote ++ escape_string s ++ dquote)%string.

(** [sorted(d.items())]: a stable insertion sort on the keys. *)
Fixpoint insert_by_key {A} (x : string * A) (l : list (string * A)) : list (string * A) :=
  match l with
  | [] => [x]
  | y :: rest =>
      if String.ltb (fst x) (fst y) then x :: l
      else y :: insert_by_key x rest
  end.

Definition sort_by_key {A} (l : list (string * A)) : list (string * A) :=
  fold_right insert_by_key [] l.

Definition dumps_item (kv : string * string) : string :=
  (dumps_str (fst kv) ++ ": " ++ snd kv)%string.

Fixpoint json_dumps (sort_keys : bool) (j : json) : string :=
  match j with
  | JNull => "null"
  | JBool true => "true"
  | JBool false => "false"
  | JInt n => pretty n
  | JStr s => dumps_str s
  | JList l =>
      ("[" ++ String.concat ", " (map (json_dumps sort_keys) l) ++ "]")%string
  | JDict kv =>
      let items := map (fun e => (fst e, json_dumps sort_keys (snd e))) kv in
      let items := if sort_keys then sort_by_key items else items in
      ("{" ++ String.concat ", " (map dumps_item items) ++ "}")%string
  end.

(** ** Exceptions, results and the document store *)

Inductive exn : Type :=
| AttributeError (msg : string)
| BackendError (msg : string)     (* any error raised by a cloud client *)
| NotFound (msg : string)
| Timeout (msg : string)          (* requests.exceptions.Timeout *)
| RequestException (msg : string)
| TypeError (msg : string)
| OtherError (msg : string).

Definition exn_str (e : exn) : string :=
  match e with
  | AttributeError m | BackendError m | NotFound m
  | Timeout m | RequestException m | TypeError m | OtherError m => m
  end.

Inductive Result (A : Type) : Type :=
| Ok (a : A)
| Raise (e : exn).
Arguments Ok {A} a.
Arguments Raise {A} e.

(** Points in time, in microseconds. *)
Definition Time : Type := Z.
Definition seconds (n : Z) : Z := n * 1000000.
Definition timedelta_minute : Z := seconds 60.
Definition timedelta_hour : Z := seconds 3600.
Definition timedelta_day : Z := seconds 86400.

(** A [datetime] value: [datetime.utcnow()] gives a naive one, a time stamp
    read back from the store comes with the UTC zone. *)
Inductive datetime : Type :=
| Naive (t : Time)
| Aware (t : Time).

(** [a > b]: a naive and an aware value cannot be ordered. *)
Definition datetime_gt (a b : datetime) : Result bool :=
  match a, b with
  | Naive x, Naive y | Aware x, Aware y => Ok (x >? y)
  | _, _ => Raise (TypeError "can't compare offset-naive and offset-aware datetimes")
  end.

(** [a - timedelta] *)
Definition datetime_sub (a : datetime) (delta : Z) : datetime :=
  match a with
  | Naive t => Naive (t - delta)
  | Aware t => Aware (t - delta)
  end.

(** A document of [ai_usage_tracking]; a field the document lacks is [None]. *)
Record UsageDoc : Type := mkUsage {
  created_at : option Time;
  total_requests : option Z;
  successful_requests : option Z;
  total_tokens : option Z;
  last_request : option Time;
  requests_this_minute : option (list Time);
  requests_this_hour : option (list Time);
  requests_this_day : option (list Time) }.

(** A document of [shared_ai_keys]. *)
Record KeyDoc : Type := mkKey {
  key_id : string;
  active : option bool;
  used_today : option Z;
  daily_quota : option Z }.

(** The database: usage documents by device id, and the key documents in
    document-id order (the order in which a query lists equal keys). *)
Record Store : Type := mkStore {
  usage : gmap string UsageDoc;
  shared_keys : list KeyDoc }.

Definition set_usage (st : Store) (u : gmap string UsageDoc) : Store :=
  mkStore u (shared_keys st).

(** Stateful code that may raise: a state and error monad over [Store]. *)
Definition M (A : Type) : Type := Store -> Result A * Store.

Definition ret {A} (a : A) : M A := fun st => (Ok a, st).
Definition raise {A} (e : exn) : M A := fun st => (Raise e, st).
Definition bind {A B} (m : M A) (k : A -> M B) : M B :=
  fun st => match m st with
            | (Ok a, st') => k a st'
            | (Raise e, st') => (Raise e, st')
            end.
(** [try: m except Exception as e: h e]. *)
Definition try_except {A} (m : M A) (h : exn -> M A) : M A :=
  fun st => match m st with
            | (Ok a, st') => (Ok a, st')
            | (Raise e, st') => h e st'
            end.
Definition lift {A} (r : Result A) : M A := fun st => (r, st).

Notation "'do' x <- m ; k" := (bind m (fun x => k))
  (at level 10, x name, m at level 100, k at level 200).
Notation "'do' ' p <- m ; k" := (bind m (fun x => match x with p => k end))
  (at level 10, p pattern, m at level 100, k at level 200).

(** What lies outside the program during one call: the clock readings, the
    failures of the cloud clients, the secret manager and the upstream API. *)
Inductive HttpOutcome : Type :=
| PostRaises (e : exn)
| PostJson (result : json).

Record Env : Type := mkEnv {
  utcnow_check : Time;                    (* the clock, read by the quota check *)
  utcnow_track : Time;                    (* the clock, read by the usage update *)
  usage_get_fault : option exn;           (* usage_ref.get() raises *)
  usage_set_fault : option exn;           (* usage_ref.set() raises *)
  usage_update_fault : option exn;        (* usage_ref.update() raises *)
  keys_query_fault : option exn;          (* first key query raises *)
  keys_fallback_fault : option exn;       (* second key query raises *)
  access_secret : string -> Result string;(* secret payload, decoded *)
  requests_post : json -> string -> HttpOutcome
                                          (* upstream call for a request and a key *)
}.

Definition faulty (f : option exn) : M unit :=
  match f with
  | Some e => raise e
  | None => ret tt
  end.

(** [usage_ref.get()]: the snapshot, [None] when it does not exist. *)
Definition usage_ref_get (E : Env) (device_id : string) : M (option UsageDoc) :=
  do _ <- faulty (usage_get_fault E);
  fun st => (Ok (usage st !! device_id), st).

(** [usage_ref.set(doc)]. *)
Definition usage_ref_set (E : Env) (device_id : string) (doc : UsageDoc) : M unit :=
  do _ <- faulty (usage_set_fault E);
  fun st => (Ok tt, set_usage st (<[device_id := doc]> (usage st))).

(** [usage_ref.update(...)]: raises [NotFound] on a missing document. *)
Definition usage_ref_update (E : Env) (device_id : string)
    (f : UsageDoc -> UsageDoc) : M unit :=
  do _ <- faulty (usage_update_fault E);
  fun st =>
    match usage st !! device_id with
    | None => (Raise (NotFound device_id), st)
    | Some doc => (Ok tt, set_usage st (<[device_id := f doc]> (usage st)))
    end.

(** [firestore.Increment(n)]: a missing field counts as 0. *)
Definition Increment (n : Z) (field : option Z) : option Z :=
  Some (default 0 field + n).

(** [firestore.ArrayUnion(xs)]: each element not yet in the array is appended. *)
Definition ArrayUnion (xs : list Time) (field : option (list Time)) : option (list Time) :=
  Some (fold_left (fun acc x => if bool_decide (x ∈ acc) then acc else acc ++ [x])
                  xs (default [] field)).

(** ** [functions/ai-proxy/main.py] *)

Record RateLimits : Type := mkLimits {
  requests_per_minute : Z;
  requests_per_hour : Z;
  requests_per_day : Z;
  requests_per_device : Z }.

Definition RATE_LIMITS : RateLimits := mkLimits 10 100 500 1000.

Record Request : Type := mkRequest {
  method : string;
  headers : list (string * string);
  remote_addr : option string;
  args : list (string * string);
  get_json : Result json }.

(** [headers.get(name)] and [args.get(name)]: the first entry of that name. *)
Fixpoint multi_get (l : list (string * string)) (name : string) : option string :=
  match l with
  | [] => None
  | (k, v) :: rest => if String.eqb k name then Some v else multi_get rest name
  end.

(** [type(x).__name__] and the error of [x.get] on a value that is no dict. *)
Definition type_name (j : json) : string :=
  match j with
  | JNull => "NoneType"
  | JBool _ => "bool"
  | JInt _ => "int"
  | JStr _ => "str"
  | JList _ => "list"
  | JDict _ => "dict"
  end.

Definition no_get (j : json) : exn :=
  AttributeError ("'" ++ type_name j ++ "' object has no attribute 'get'")%string.

(** How an f-string prints a value that may be [None]. *)
Definition format_opt (o : option string) : string := default "None" o.

Definition generate_device_id (request : Request) : Result string :=
  let ip := match multi_get (headers request) "X-Forwarded-For" with
            | Some v => v
            | None => format_opt (remote_addr request)
            end in
  let user_agent := default "" (multi_get (headers request) "User-Agent") in
  match get_json request with
  | Raise e => Raise e
  | Ok (JDict kv) =>
      let camera_info := dict_get kv "device_info" (JDict []) in
      let device_string :=
        (ip ++ ":" ++ user_agent ++ ":" ++ json_dumps true camera_info)%string in
      Ok (substring 0 16 (SHA256.hexdigest (encode device_string)))
  | Ok j => Raise (no_get j)
  end.

(** [[ts for ts in stamps if ts > since]], the stamps being those of a
    window as the store returns them, each with the UTC zone; the
    comprehension stops at the first comparison that raises. *)
Fixpoint stamps_after (since : datetime) (stamps : list Time) : Result (list Time) :=
  match stamps with
  | [] => Ok []
  | ts :: rest =>
      match datetime_gt (Aware ts) since with
      | Raise e => Raise e
      | Ok keep =>
          match stamps_after since rest with
          | Raise e => Raise e
          | Ok kept => Ok (if keep then ts :: kept else kept)
          end
      end
  end.

Definition within (horizon : Z) (now : datetime) (l : option (list Time))
    : Result (list Time) :=
  stamps_after (datetime_sub now horizon) (default [] l).

Definition len {A} (l : list A) : Z := Z.of_nat (length l).

Definition check_rate_limits (L : RateLimits) (E : Env) (now : Time)
    (device_id : string) : M (bool * string) :=
  try_except
    (do usage_doc <- usage_ref_get E device_id;
     match usage_doc with
     | None =>
         do _ <- usage_ref_set E device_id
                   (mkUsage (Some now) (Some 0) None None None
                            (Some []) (Some []) (Some []));
         ret (true, "First time user")
     | Some usage_data =>
         if default 0 (total_requests usage_data) >=? requests_per_device L
         then ret (false, "Demo limit reached. Please upgrade to continue.")
         else
           do requests_this_minute' <-
             lift (within timedelta_minute (Naive now) (requests_this_minute usage_data));
           do requests_this_hour' <-
             lift (within timedelta_hour (Naive now) (requests_this_hour usage_data));
           do requests_this_day' <-
             lift (within timedelta_day (Naive now) (requests_this_day usage_data));
           if len requests_this_minute' >=? requests_per_minute L
           then ret (false, "Rate limit exceeded. Please wait a minute.")
           else if len requests_this_hour' >=? requests_per_hour L
           then ret (false, "Hourly limit reached. Please wait.")
           else if len requests_this_day' >=? requests_per_day L
           then ret (false, "Daily limit reached. Try again tomorrow.")
           else ret (true, "Within limits")
     end)
    (fun _ => ret (false, "Service error")).

(** *** The key pool *)

Definition is_active (k : KeyDoc) : bool :=
  match active k with Some true => true | _ => false end.

(** Ordering on [used_today] leaves out the documents without the field and
    keeps the document-id order among equal values: a document goes before
    the later ones that are used as much. *)
Fixpoint insert_by_usage (x : Z * KeyDoc) (l : list (Z * KeyDoc)) : list (Z * KeyDoc) :=
  match l with
  | [] => [x]
  | y :: rest =>
      if fst x <=? fst y then x :: l else y :: insert_by_usage x rest
  end.

Definition with_usage (k : KeyDoc) : option (Z * KeyDoc) :=
  match used_today k with Some u => Some (u, k) | None => None end.

Definition order_by_used_today (l : list KeyDoc) : list KeyDoc :=
  map snd (fold_right insert_by_usage [] (omap with_usage l)).

(** [where('active', '==', True).order_by('used_today').limit(1).get()] *)
Definition query_least_used (E : Env) : M (list KeyDoc) :=
  do _ <- faulty (keys_query_fault E);
  fun st =>
    (Ok (firstn 1 (order_by_used_today (List.filter is_active (shared_keys st)))), st).

(** [where('active', '==', True).where('used_today', '<', 1000).limit(1).get()];
    a query with a range filter lists its matches by the filtered field, so
    the order is that of the first query. *)
Definition query_under_1000 (E : Env) : M (list KeyDoc) :=
  do _ <- faulty (keys_fallback_fault E);
  fun st =>
    (Ok (firstn 1 (List.filter (fun k => default 0 (used_today k) <? 1000)
                     (order_by_used_today (List.filter is_active (shared_keys st))))),
     st).

(** [get_secret]: logs and re-raises. *)
Definition get_secret (E : Env) (secret_name : string) : M string :=
  try_except (lift (access_secret E secret_name)) (fun e => raise e).

Definition decrypt_key (E : Env) (key_doc : KeyDoc) : M (option string) :=
  try_except
    (do api_key <- get_secret E ("ai-key-" ++ key_id key_doc)%string;
     ret (Some api_key))
    (fun _ => ret None).

Definition get_next_available_key (E : Env) : M (option string) :=
  do keys <- query_least_used E;
  match keys with
  | [] => ret None
  | key_doc :: _ =>
      let key_data := key_doc in
      if default 0 (used_today key_data) >=? default 1000 (daily_quota key_data)
      then
        do keys <- query_under_1000 E;
        match keys with
        | [] => ret None
        | key_doc :: _ => decrypt_key E key_doc
        end
      else decrypt_key E key_doc
  end.

(** The field transforms that [track_usage] hands to [update]. *)
Definition usage_transforms (now : Time) (success : bool) (tokens_used : Z)
    (d : UsageDoc) : UsageDoc :=
  {| created_at := created_at d;
     total_requests := Increment 1 (total_requests d);
     successful_requests :=
       Increment (if success then 1 else 0) (successful_requests d);
     total_tokens := Increment tokens_used (total_tokens d);
     last_request := Some now;
     requests_this_minute := ArrayUnion [now] (requests_this_minute d);
     requests_this_hour := ArrayUnion [now] (requests_this_hour d);
     requests_this_day := ArrayUnion [now] (requests_this_day d) |}.

Definition track_usage (E : Env) (now : Time) (device_id : string)
    (success : bool) (tokens_used : Z) : M unit :=
  try_except
    (usage_ref_update E device_id (usage_transforms now success tokens_used))
    (fun _ => ret tt).

(** *** The upstream call and the HTTP handlers *)

Inductive ProxyResult : Type :=
| ProxyOk (response : json) (tokens_used : json)
| ProxyErr (error : string).

Definition proxy_success (r : ProxyResult) : bool :=
  match r with ProxyOk _ _ => true | ProxyErr _ => false end.

(** [result.get('tokens_used', 0)] *)
Definition proxy_tokens (r : ProxyResult) : json :=
  match r with ProxyOk _ t => t | ProxyErr _ => JInt 0 end.

Definition proxy_to_gemini (E : Env) (request_data : json) (api_key : string)
    : ProxyResult :=
  match request_data with
  | JDict _ =>
      match requests_post E request_data api_key with
      | PostRaises (Timeout _) => ProxyErr "Request timeout"
      | PostRaises (RequestException _) => ProxyErr "API request failed"
      | PostRaises _ => ProxyErr "Internal error"
      | PostJson (JDict kv) =>
          match dict_get kv "usageMetadata" (JDict []) with
          | JDict usage_metadata =>
              ProxyOk (JDict kv) (dict_get usage_metadata "totalTokenCount" (JInt 0))
          | _ => ProxyErr "Internal error"
          end
      | PostJson _ => ProxyErr "Internal error"
      end
  | _ => ProxyErr "Internal error"
  end.

Inductive Body : Type :=
| Text (s : string)
| Json (j : json).       (* a dict, serialised by the framework *)

Record Response : Type := mkResponse {
  body : Body;
  status : Z;
  resp_headers : list (string * string) }.

Definition json_headers : list (string * string) :=
  [("Access-Control-Allow-Origin", "*"); ("Content-Type", "application/json")].

Definition preflight_headers (methods : string) : list (string * string) :=
  [("Access-Control-Allow-Origin", "*");
   ("Access-Control-Allow-Methods", methods);
   ("Access-Control-Allow-Headers", "Content-Type");
   ("Access-Control-Max-Age", "3600")].

Definition reply (fields : list (string * json)) (code : Z) : Response :=
  mkResponse (Text (json_dumps false (JDict fields))) code json_headers.

(** The call of [track_usage] from the handler. The token count comes from
    the upstream response; [Increment] takes a number, and with anything
    else the update is refused inside the [try] of [track_usage]. *)
Definition track_result (E : Env) (device_id : string) (result : ProxyResult) : M unit :=
  match proxy_tokens result with
  | JInt n => track_usage E (utcnow_track E) device_id (proxy_success result) n
  | _ => ret tt
  end.

Definition ai_proxy (L : RateLimits) (E : Env) (request : Request) : M Response :=
  if String.eqb (method request) "OPTIONS"
  then ret (mkResponse (Text "") 204 (preflight_headers "POST"))
  else
    try_except
      (if negb (String.eqb (method request) "POST")
       then ret (reply [("error", JStr "Method not allowed")] 405)
       else
         do request_data <- lift (get_json request);
         if negb (truthy request_data)
         then ret (reply [("error", JStr "Invalid request body")] 400)
         else
           do device_id <- lift (generate_device_id request);
           do '(allowed, message) <- check_rate_limits L E (utcnow_check E) device_id;
           if negb allowed
           then ret (reply [("error", JStr "Rate limit exceeded");
                            ("message", JStr message);
                            ("upgrade_url", JStr "https://anava.ai/upgrade")] 429)
           else
             do api_key <- get_next_available_key E;
             match api_key with
             | Some (String c rest) =>
                 let result := proxy_to_gemini E request_data (String c rest) in
                 do _ <- track_result E device_id result;
                 match result with
                 | ProxyOk response _ =>
                     ret (mkResponse (Text (json_dumps false response)) 200 json_headers)
                 | ProxyErr error =>
                     ret (reply [("error", JStr error);
                                 ("message", JStr "Failed to process AI request")] 500)
                 end
             | _ =>
                 ret (reply [("error", JStr "Service temporarily unavailable");
                             ("message",
                              JStr "No API keys available. Please try again later.")]
                            503)
             end)
      (fun _ => ret (reply [("error", JStr "Internal server error");
                            ("message", JStr "An unexpected error occurred")] 500)).

Section DeviceStatus.

(** [datetime.isoformat] *)
Variable isoformat : Time -> string.

Definition status_fields (L : RateLimits) (now : Time) (device_id : string)
    (usage_doc : option UsageDoc) : list (string * json) :=
  match usage_doc with
  | None =>
      [("device_id", JStr device_id);
       ("status", JStr "new");
       ("requests_used", JInt 0);
       ("requests_remaining", JInt (requests_per_device L));
       ("daily_limit", JInt (requests_per_day L))]
  | Some usage_data =>
      let total_requests := default 0 (total_requests usage_data) in
      [("device_id", JStr device_id);
       ("status", JStr (if total_requests <? requests_per_device L
                        then "active" else "limit_reached"));
       ("requests_used", JInt total_requests);
       ("requests_remaining", JInt (Z.max 0 (requests_per_device L - total_requests)));
       ("daily_limit", JInt (requests_per_day L));
       ("created_at", JStr (isoformat (default now (created_at usage_data))))]
  end.

Definition get_device_status (L : RateLimits) (E : Env) (now : Time)
    (request : Request) : M Response :=
  if String.eqb (method request) "OPTIONS"
  then ret (mkResponse (Text "") 204 (preflight_headers "GET"))
  else
    try_except
      (do device_id <-
         match multi_get (args request) "device_id" with
         | Some (String c rest) => ret (String c rest)
         | _ => lift (generate_device_id request)
         end;
       do usage_doc <- usage_ref_get E device_id;
       ret (reply (status_fields L now device_id usage_doc) 200))
      (fun _ => ret (reply [("error", JStr "Failed to get status")] 500)).

End DeviceStatus.

(** ** The device authenticator *)

(** What [auth.create_custom_token] returns. *)
Inductive Token : Type :=
| TokenBytes (s : string)
| TokenStr (s : string).

Record AuthEnv : Type := mkAuthEnv {
  apps_initialized : bool;                       (* firebase_admin._apps *)
  create_custom_token : json -> Result Token     (* for uid = str(device_id) *)
}.

(** [request.get_json(silent=True)] *)
Definition get_json_silent (request : Request) : json :=
  match get_json request with
  | Ok j => j
  | Raise _ => JNull
  end.

(** [req_json.get(key)] on whatever the body holds. *)
Definition json_get (j : json) (key : string) : Result json :=
  match j with
  | JDict kv => Ok (dict_get kv key JNull)
  | _ => Raise (no_get j)
  end.

(** [temp-functions/device-auth/main.py] *)
Module DeviceAuth.

Definition device_authenticator (A : AuthEnv) (request : Request) : Response :=
  if negb (apps_initialized A)
  then mkResponse (Text "Firebase SDK not init") 500 []
  else if negb (String.eqb (method request) "POST")
  then mkResponse (Text "Method Not Allowed") 405 []
  else
    let req_json := get_json_silent request in
    if negb (truthy req_json)
    then mkResponse (Text "Bad Request: No JSON") 400 []
    else
      match json_get req_json "device_id" with
      | Raise _ => mkResponse (Text "Token gen error") 500 []
      | Ok device_id =>
          if negb (truthy device_id)
          then mkResponse (Text "Bad Request: 'device_id' missing") 400 []
          else
            match create_custom_token A device_id with
            | Ok (TokenBytes custom_token) =>
                mkResponse (Json (JDict [("firebase_custom_token", JStr custom_token)]))
                           200 []
            | Ok (TokenStr _) (* no [decode] on a [str] *)
            | Raise _ => mkResponse (Text "Token gen error") 500 []
            end
      end.

End DeviceAuth.

(** [temp-function-update/device-auth/main.py] *)
Module DeviceAuthUpdate.

Definition cors_headers : list (string * string) :=
  [("Access-Control-Allow-Origin", "*");
   ("Access-Control-Allow-Methods", "POST, OPTIONS");
   ("Access-Control-Allow-Headers", "Content-Type, x-api-key");
   ("Content-Type", "application/json")].

Definition error (msg : string) (code : Z) : Response :=
  mkResponse (Json (JDict [("error", JStr msg)])) code cors_headers.

Definition device_authenticator (A : AuthEnv) (request : Request) : Response :=
  if String.eqb (method request) "OPTIONS"
  then mkResponse (Text "") 204 cors_headers
  else if negb (apps_initialized A)
  then error "Firebase SDK not initialized" 500
  else if negb (String.eqb (method request) "POST")
  then error "Method not allowed" 405
  else
    let req_json := get_json_silent request in
    if negb (truthy req_json)
    then error "Bad Request: No JSON body" 400
    else
      match json_get req_json "device_id" with
      | Raise e => error ("Token generation error: " ++ exn_str e) 500
      | Ok device_id =>
          if negb (truthy device_id)
          then error "Bad Request: 'device_id' missing" 400
          else
            match create_custom_token A device_id with
            | Ok (TokenBytes custom_token) | Ok (TokenStr custom_token) =>
                mkResponse (Json (JDict [("firebase_custom_token", JStr custom_token)]))
                           200 cors_headers
            | Raise e => error ("Token generation error: " ++ exn_str e) 500
            end
      end.

End DeviceAuthUpdate.

(** ** Definitions used to state the properties *)

(** The number of time stamps of a window younger than [horizon] seconds. *)
Definition recent_count (horizon : Z) (now : Time) (l : option (list Time)) : Z :=
  len (List.filter (fun ts => now - ts <? seconds horizon) (default [] l)).

(** The verdict that the design document describes for a record: the
    lifetime cap, then the counts of recent requests per window. *)
Definition described_verdict (L : RateLimits) (now : Time) (r : UsageDoc)
    : bool * string :=
  if default 0 (total_requests r) >=? requests_per_device L
  then (false, "Demo limit reached. Please upgrade to continue.")
  else if recent_count 60 now (requests_this_minute r) >=? requests_per_minute L
  then (false, "Rate limit exceeded. Please wait a minute.")
  else if recent_count 3600 now (requests_this_hour r) >=? requests_per_hour L
  then (false, "Hourly limit reached. Please wait.")
  else if recent_count 86400 now (requests_this_day r) >=? requests_per_day L
  then (false, "Daily limit reached. Try again tomorrow.")
  else (true, "Within limits").

(** A record with a time stamp in one of its windows. *)
Definition holds_stamp (r : UsageDoc) : bool :=
  match default [] (requests_this_minute r), default [] (requests_this_hour r),
        default [] (requests_this_day r) with
  | [], [], [] => false
  | _, _, _ => true
  end.

(** The verdict of the check on a record that was read: the lifetime cap
    first; below it the comparison of a stored stamp with the clock raises,
    and with no stamp at all the three counts are 0. *)
Definition quota_verdict (L : RateLimits) (r : UsageDoc) : bool * string :=
  if default 0 (total_requests r) >=? requests_per_device L
  then (false, "Demo limit reached. Please upgrade to continue.")
  else if holds_stamp r
  then (false, "Service error")
  else if 0 >=? requests_per_minute L
  then (false, "Rate limit exceeded. Please wait a minute.")
  else if 0 >=? requests_per_hour L
  then (false, "Hourly limit reached. Please wait.")
  else if 0 >=? requests_per_day L
  then (false, "Daily limit reached. Try again tomorrow.")
  else (true, "Within limits").

(** The record written for a device seen for the first time. *)
Definition zero_record (now : Time) : UsageDoc :=
  mkUsage (Some now) (Some 0) None None None (Some []) (Some []) (Some []).

(** Checks in a row, each with its own clock reading and backend behaviour,
    with no usage update in between. *)
Fixpoint check_repeatedly (L : RateLimits) (calls : list (Env * Time))
    (device_id : string) (st : Store) : Store :=
  match calls with
  | [] => st
  | (E, now) :: rest =>
      check_repeatedly L rest device_id (snd (check_rate_limits L E now device_id st))
  end.

(** A computation whose final store is related to its initial one by [R]. *)
Definition keeps {A} (R : Store -> Store -> Prop) (m : M A) : Prop :=
  forall st, R st (snd (m st)).

(** The lifetime count of a device as the handlers read it: 0 without a
    record or without the field. *)
Definition total_of (device_id : string) (st : Store) : Z :=
  default 0 (usage st !! device_id ≫= total_requests).

(** What [ArrayUnion([now])] makes of a window. *)
Definition add_once (now : Time) (window : option (list Time)) : list Time :=
  if bool_decide (now ∈ default [] window) then default [] window
  else default [] window ++ [now].

(** The operations of the vendor on the store. *)
Inductive Op : Type :=
| CheckQuota (L : RateLimits) (E : Env) (now : Time) (device_id : string)
| RecordUsage (E : Env) (now : Time) (device_id : string) (success : bool) (tokens : Z)
| SelectKey (E : Env)
| ProxyRequest (L : RateLimits) (E : Env) (request : Request)
| StatusRequest (isoformat : Time -> string) (L : RateLimits) (E : Env) (now : Time)
    (request : Request).

Definition run_op (op : Op) (st : Store) : Store :=
  match op with
  | CheckQuota L E now device_id => snd (check_rate_limits L E now device_id st)
  | RecordUsage E now device_id success tokens =>
      snd (track_usage E now device_id success tokens st)
  | SelectKey E => snd (get_next_available_key E st)
  | ProxyRequest L E request => snd (ai_proxy L E request st)
  | StatusRequest isoformat L E now request =>
      snd (get_device_status isoformat L E now request st)
  end.

Definition run_ops (ops : list Op) (st : Store) : Store :=
  fold_left (fun st op => run_op op st) ops st.

(** ** Sample data *)

Definition now0 : Time := seconds 1700000000.

Definition sample_answer : json :=
  JDict [("candidates", JList []);
         ("usageMetadata", JDict [("totalTokenCount", JInt 42)])].

(** A backend with no failure. *)
Definition calm : Env :=
  mkEnv now0 (now0 + seconds 1) None None None None None
        (fun name => Ok ("secret:" ++ name)%string)
        (fun _ _ => PostJson sample_answer).

(** A backend whose usage collection cannot be read. *)
Definition broken_read : Env :=
  mkEnv now0 (now0 + seconds 1) (Some (BackendError "unavailable")) None None None None
        (fun name => Ok ("secret:" ++ name)%string)
        (fun _ _ => PostJson sample_answer).

(** Three requests: 61 s, 30 s and 59 min before [now0]. *)
Definition sample_times : list Time :=
  [now0 - seconds 61; now0 - seconds 30; now0 - seconds (59 * 60)].

Definition sample_record : UsageDoc :=
  mkUsage (Some (now0 - seconds 3600)) (Some 3) (Some 3) (Some 120)
          (Some (now0 - seconds 30))
          (Some sample_times) (Some sample_times) (Some sample_times).

Definition empty_store : Store := mkStore ∅ [].

Definition sample_store : Store := mkStore {[ "f1" := sample_record ]} [].

(** The deployed limits with the minute ceiling lowered to 1. *)
Definition one_per_minute : RateLimits := mkLimits 1 100 500 1000.

(** [sample_record] after one successful request of 7 tokens at [now0]. *)
Definition sample_record_after : UsageDoc :=
  mkUsage (Some (now0 - seconds 3600)) (Some 4) (Some 4) (Some 127) (Some now0)
          (Some (sample_times ++ [now0])) (Some (sample_times ++ [now0]))
          (Some (sample_times ++ [now0])).

(** A record whose windows already hold [now0]. *)
Definition same_instant_record : UsageDoc :=
  mkUsage (Some now0) (Some 1) (Some 1) (Some 5) (Some now0)
          (Some [now0]) (Some [now0]) (Some [now0]).

Definition same_instant_store : Store := mkStore {[ "f1" := same_instant_record ]} [].

(** The status of the reply of a handler run (0 if the handler raised). *)
Definition status_of (out : Result Response * Store) : Z :=
  match fst out with
  | Ok resp => status resp
  | Raise _ => 0
  end.

Definition sample_request : Request :=
  mkRequest "POST"
    [("User-Agent", "camera/1.0"); ("X-Forwarded-For", "203.0.113.7")]
    (Some "10.0.0.1") []
    (Ok (JDict [("model", JStr "gemini-1.5-flash");
                ("contents", JList []);
                ("device_info", JDict [("serial", JStr "ACCC8E000001");
                                       ("model", JStr "Q1656")])])).

Definition sample_fingerprint : string :=
  Eval vm_compute in
    match generate_device_id sample_request with
    | Ok fp => fp
    | Raise _ => ""
    end.

(** One pooled key, used 3 times today. *)
Definition pool : list KeyDoc := [mkKey "k1" (Some true) (Some 3) (Some 1000)].

Definition pool_store : Store := mkStore ∅ pool.

(** The device of [sample_request] at its lifetime cap. *)
Definition capped_record : UsageDoc :=
  mkUsage (Some (now0 - seconds 86400)) (Some 1000) (Some 990) (Some 50000)
          (Some (now0 - seconds 7200)) (Some []) (Some []) (Some []).

Definition capped_store : Store :=
  mkStore {[ sample_fingerprint := capped_record ]} pool.

(** A pool whose only key has used up its own quota of 5. *)
Definition exhausted_pool : list KeyDoc := [mkKey "k1" (Some true) (Some 5) (Some 5)].

(** A pool whose least used key is exhausted while the other one, with a
    larger quota, is not. *)
Definition uneven_pool : list KeyDoc :=
  [mkKey "k1" (Some true) (Some 1000) (Some 1000);
   mkKey "k2" (Some true) (Some 1500) (Some 2000)].

(** The two keys of the selection scenario of the design document. *)
Definition scenario_pool : list KeyDoc :=
  [mkKey "k7" (Some true) (Some 7) (Some 1000);
   mkKey "k3" (Some true) (Some 3) (Some 1000)].

(** Eligibility as the data model states it: active, and used less than the
    key's own quota. *)
Definition eligible (k : KeyDoc) : bool :=
  is_active k && (default 0 (used_today k) <? default 1000 (daily_quota k)).

(** The device id that the status handler reports: the query parameter, or
    the fingerprint of the request when the parameter is absent or empty. *)
Definition status_device_id (request : Request) : Result string :=
  match multi_get (args request) "device_id" with
  | Some (String c rest) => Ok (String c rest)
  | _ => generate_device_id request
  end.

Definition status_request : Request :=
  mkRequest "GET" [("User-Agent", "curl/8.0")] (Some "10.0.0.1")
            [("device_id", "cam-1")] (Raise (OtherError "no JSON body")).

Definition status_store : Store := mkStore {[ "cam-1" := sample_record ]} [].

(** The [device_id] that the authenticator reads in the body: none when the
    body is not a JSON object. *)
Definition body_device_id (request : Request) : option json :=
  match get_json_silent request with
  | JDict kv => Some (dict_get kv "device_id" JNull)
  | _ => None
  end.


Definition token_body (t : string) : Body :=
  Json (JDict [("firebase_custom_token", JStr t)]).

(** An identity provider that signs, and one that was not initialised. *)
Definition signer : AuthEnv :=
  mkAuthEnv true (fun d => Ok (TokenBytes ("jwt-for-" ++ json_dumps false d)%string)).


Definition auth_request (m : string) (b : json) : Request :=
  mkRequest m [("Content-Type", "application/json")] (Some "10.0.0.1") [] (Ok b).

(** The three signals of a request that make up its fingerprint. *)
Definition source_ip (request : Request) : string :=
  default (format_opt (remote_addr request)) (multi_get (headers request) "X-Forwarded-For").

Definition user_agent (request : Request) : string :=
  default "" (multi_get (headers request) "User-Agent").

Definition device_info (request : Request) : option json :=
  match get_json request with
  | Ok (JDict kv) => Some (dict_get kv "device_info" (JDict []))
  | _ => None
  end.

(** Lower-case hexadecimal text. *)
Definition is_hex (c : ascii) : bool :=
  let n := code c in
  ((48 <=? n) && (n <=? 57)) || ((97 <=? n) && (n <=? 102)).

Fixpoint string_all (p : ascii -> bool) (s : string) : bool :=
  match s with
  | EmptyString => true
  | String c rest => p c && string_all p rest
  end.

(** The request of the same device with a different method, further headers,
    another peer address behind the proxy, and other fields in its body. *)
Definition sample_request_again : Request :=
  mkRequest "PUT"
    [("Accept", "*/*"); ("X-Forwarded-For", "203.0.113.7");
     ("User-Agent", "camera/1.0")]
    (Some "10.0.0.99") [("device_id", "other")]
    (Ok (JDict [("device_info", JDict [("serial", JStr "ACCC8E000001");
                                       ("model", JStr "Q1656")]);
                ("endpoint", JStr "streamGenerateContent")])).

(** A usage update of [device_id] that the store accepts. *)
Definition accepted_update (device_id : string) (op : Op) : Prop :=
  match op with
  | RecordUsage E _ id _ _ => id = device_id /\ usage_update_fault E = None
  | _ => False
  end.

(** One request at time [t], as the two calls of the handler: the check,
    then the usage update. *)
Definition served_at (t : Time) : list Op :=
  [CheckQuota RATE_LIMITS calm t "f1"; RecordUsage calm t "f1" true 10].

(** Ten requests recorded, one per second from [now0]. *)
Definition ten_requests : list Op :=
  concat (map (fun i => served_at (now0 + seconds (Z.of_nat i))) (seq 0 10)).

(** The number of uses that the queries order by. *)
Definition uses (k : KeyDoc) : Z := default 0 (used_today k).

(** The answer of the selection for a chosen key: its secret, or nothing
    when the secret cannot be read. *)
Definition secret_of (E : Env) (k : KeyDoc) : option string :=
  match access_secret E ("ai-key-" ++ key_id k)%string with
  | Ok api_key => Some api_key
  | Raise _ => None
  end.

(** The order of a list sorted by key: no entry is above a later one. *)
Definition key_le {A} (x y : string * A) : Prop := String.ltb (fst y) (fst x) = false.

(** The same JSON value: the entries of an object are not ordered (and its
    keys are distinct). *)
#[warnings="-register-all"]
Inductive same_json : json -> json -> Prop :=
| same_null : same_json JNull JNull
| same_bool b : same_json (JBool b) (JBool b)
| same_int n : same_json (JInt n) (JInt n)
| same_str s : same_json (JStr s) (JStr s)
| same_list l1 l2 :
    Forall2 same_json l1 l2 -> same_json (JList l1) (JList l2)
| same_dict kv1 kv kv2 :
    NoDup (map fst kv1) ->
    Permutation kv1 kv ->
    Forall2 (fun a b => fst a = fst b /\ same_json (snd a) (snd b)) kv kv2 ->
    same_json (JDict kv1) (JDict kv2).

(** [sample_request] with the entries of [device_info] in the other order. *)
Definition sample_request_reordered : Request :=
  mkRequest "POST"
    [("User-Agent", "camera/1.0"); ("X-Forwarded-For", "203.0.113.7")]
    (Some "10.0.0.1") []
    (Ok (JDict [("device_info", JDict [("model", JStr "Q1656");
                                       ("serial", JStr "ACCC8E000001")])])).

(** The device of [sample_request] with a record, and a key in the pool. *)
Definition known_store : Store :=
  mkStore {[ sample_fingerprint := zero_record now0 ]} pool.

(** A backend whose upstream call times out. *)
Definition upstream_timeout : Env :=
  mkEnv now0 (now0 + seconds 30) None None None None None
        (fun name => Ok ("secret:" ++ name)%string)
        (fun _ _ => PostRaises (Timeout "read timed out")).

(** ** Further definitions: stored windows, record invariants *)

(** The windows of a device as they are stored (empty without a record or
    without the field). *)
Definition stored_minute (device_id : string) (st : Store) : list Time :=
  default [] (usage st !! device_id ≫= requests_this_minute).
Definition stored_hour (device_id : string) (st : Store) : list Time :=
  default [] (usage st !! device_id ≫= requests_this_hour).
Definition stored_day (device_id : string) (st : Store) : list Time :=
  default [] (usage st !! device_id ≫= requests_this_day).

(** A record whose counters fit together: the successes are between 0 and
    the lifetime count, and no window holds more stamps than that count. *)
Definition consistent (r : UsageDoc) : Prop :=
  0 <= default 0 (successful_requests r) <= default 0 (total_requests r)
  /\ len (default [] (requests_this_minute r)) <= default 0 (total_requests r)
  /\ len (default [] (requests_this_hour r)) <= default 0 (total_requests r)
  /\ len (default [] (requests_this_day r)) <= default 0 (total_requests r).

Definition store_consistent (st : Store) : Prop :=
  forall device_id r, usage st !! device_id = Some r -> consistent r.

(** The statuses that the proxy handler can answer. *)
Definition proxy_statuses : list Z := [204; 405; 400; 429; 503; 200; 500].

(** Limits with a lifetime cap of 3. *)
Definition cap_of_three : RateLimits := mkLimits 10 100 500 3.

Definition three_updates : list Op :=
  [RecordUsage calm now0 "f1" true 5;
   RecordUsage calm (now0 + 1) "f1" false 0;
   RecordUsage calm (now0 + 2) "f1" true 9].

(** A later call on a backend that can be read and not written. *)
Definition read_only_backend : Env :=
  mkEnv (now0 + seconds 5) (now0 + seconds 6) None (Some (BackendError "read-only"))
        (Some (BackendError "read-only")) None None
        (fun name => Ok ("secret:" ++ name)%string)
        (fun _ _ => PostJson sample_answer).

(** A backend whose secrets cannot be read. *)
Definition secrets_unreadable : Env :=
  mkEnv now0 (now0 + seconds 1) None None None None None
        (fun name => Raise (NotFound ("Secret not found: " ++ name)%string))
        (fun _ _ => PostJson sample_answer).

(** The time stamps that a record holds, over its three windows. *)
Definition stamps (r : UsageDoc) : list Time :=
  default [] (requests_this_minute r) ++ default [] (requests_this_hour r)
  ++ default [] (requests_this_day r).

(** Two keys used as much as each other, the first one with quota left and
    the second one at its own quota. *)
Definition tied_pool : list KeyDoc :=
  [mkKey "a" (Some true) (Some 5) (Some 1000);
   mkKey "b" (Some true) (Some 5) (Some 5)].

(** A store where the device [f1] has just been seen for the first time. *)
Definition fresh_store : Store := mkStore {[ "f1" := zero_record now0 ]} [].

(** A pool with an inactive key that was never used, and a used active one. *)
Definition mixed_pool : list KeyDoc :=
  [mkKey "idle" (Some false) (Some 0) (Some 1000);
   mkKey "busy" (Some true) (Some 40) (Some 1000);
   mkKey "unset" (Some true) None (Some 1000)].

(** The replies of the proxy handler, by name. *)
Definition denied_reply (message : string) : Response :=
  reply [("error", JStr "Rate limit exceeded");
         ("message", JStr message);
         ("upgrade_url", JStr "https://anava.ai/upgrade")] 429.

Definition unavailable_reply : Response :=
  reply [("error", JStr "Service temporarily unavailable");
         ("message", JStr "No API keys available. Please try again later.")] 503.

Definition internal_error_reply : Response :=
  reply [("error", JStr "Internal server error");
         ("message", JStr "An unexpected error occurred")] 500.

Definition upstream_reply (result : ProxyResult) : Response :=
  match result with
  | ProxyOk response _ => mkResponse (Text (json_dumps false response)) 200 json_headers
  | ProxyErr error =>
      reply [("error", JStr error); ("message", JStr "Failed to process AI request")] 500
  end.

(** A request passes the validation of the proxy handler: a POST whose body
    parses to a truthy value and gives a fingerprint. *)
Definition validated (request : Request) (request_data : json) (device_id : string)
    : Prop :=
  method request = "POST"
  /\ get_json request = Ok request_data
  /\ truthy request_data = true
  /\ generate_device_id request = Ok device_id.

(** The device [cam-1] at its lifetime cap. *)
Definition capped_status_store : Store := mkStore {[ "cam-1" := capped_record ]} [].

(** The text of a signed token, [bytes] or [str]. *)
Definition token_text (t : Token) : string :=
  match t with TokenBytes s | TokenStr s => s end.

(** ** A caller: [test-vertex-cloud-setup.py] *)

(** What [requests.post] returns: the status and what [response.json()]
    gives or raises. *)
Record HttpResponse : Type := mkHttp {
  status_code : Z;
  response_json : Result json }.

(** [response.raise_for_status()] *)
Definition raise_for_status (response : HttpResponse) : Result unit :=
  if (400 <=? status_code response) && (status_code response <? 600)
  then Raise (RequestException "HTTPError")
  else Ok tt.

(** [get_firebase_custom_token], with the call to the endpoint as [post]
    (from the JSON payload to the response, or an exception). The token is
    returned after [len(token)] and [token[:50]], which a string or a list
    allow; a response that is not a JSON object raises on the membership
    test or on the subscript. *)
Definition get_firebase_custom_token (post : json -> Result HttpResponse)
    (DEVICE_ID : string) : Result json :=
  match post (JDict [("device_id", JStr DEVICE_ID)]) with
  | Raise e => Raise e
  | Ok response =>
      match raise_for_status response with
      | Raise e => Raise e
      | Ok _ =>
          match response_json response with
          | Raise e => Raise e
          | Ok (JDict data) =>
              match dict_lookup data "firebase_custom_token" with
              | None => Raise (OtherError "No custom token in response")
              | Some (JStr token) => Ok (JStr token)
              | Some (JList token) => Ok (JList token)
              | Some _ => Raise (OtherError "TypeError")
              end
          | Ok _ => Raise (OtherError "No custom token in response")
          end
      end
  end.

(** [test_step]: the result of the step and whether it passed. *)
Definition test_step {A} (func : Result A) : option A * bool :=
  match func with
  | Ok result => (Some result, true)
  | Raise _ => (None, false)
  end.

(** The response as the caller sees it: the framework sends a dict as JSON
    and a string as text, which [parse] reads back. *)
Definition serve (parse : string -> Result json) (r : Response) : HttpResponse :=
  mkHttp (status r)
         match body r with
         | Json j => Ok j
         | Text s => parse s
         end.

(** The endpoint served by the authenticator behind a gateway that passes
    the POST and its JSON payload on. *)
Definition initiate_endpoint (parse : string -> Result json) (A : AuthEnv)
    (payload : json) : Result HttpResponse :=
  Ok (serve parse (DeviceAuthUpdate.device_authenticator A (auth_request "POST" payload))).

(** * Properties *)

(** ** The quota check *)

(** Pruning a window: nothing to compare in an empty one; the first stamp
    of any other one cannot be compared with the clock reading. *)
Lemma within_read_back horizon now l :
  within horizon (Naive now) l =
  match default [] l with
  | [] => Ok []
  | _ :: _ => Raise (TypeError "can't compare offset-naive and offset-aware datetimes")
  end.
Proof. unfold within. by destruct (default [] l). Qed.

(** The store read of the check, when the backend answers. *)
Lemma usage_ref_get_ok E device_id st :
  usage_get_fault E = None ->
  usage_ref_get E device_id st = (Ok (usage st !! device_id), st).
Proof. intros H. unfold usage_ref_get, bind, faulty. rewrite H. reflexivity. Qed.

Lemma usage_ref_get_fault E device_id st e :
  usage_get_fault E = Some e ->
  usage_ref_get E device_id st = (Raise e, st).
Proof. intros H. unfold usage_ref_get, bind, faulty. rewrite H. reflexivity. Qed.

Lemma check_existing L E now device_id st r :
  usage_get_fault E = None ->
  usage st !! device_id = Some r ->
  check_rate_limits L E now device_id st = (Ok (quota_verdict L r), st).
Proof.
  intros Hf Hr. unfold check_rate_limits, try_except, bind.
  rewrite (usage_ref_get_ok _ _ _ Hf), Hr.
  unfold quota_verdict, holds_stamp, lift. rewrite !within_read_back.
  destruct (_ >=? requests_per_device L); [reflexivity|].
  destruct (default [] (requests_this_minute r)); [|reflexivity].
  destruct (default [] (requests_this_hour r)); [|reflexivity].
  destruct (default [] (requests_this_day r)); [|reflexivity].
  unfold len. simpl. change (Z.of_nat 0) with 0.
  repeat (match goal with |- context [if ?c then _ else _] => destruct c end;
          try reflexivity).
Qed.

Lemma check_fault L E now device_id st e :
  usage_get_fault E = Some e ->
  check_rate_limits L E now device_id st = (Ok (false, "Service error"), st).
Proof.
  intros Hf. unfold check_rate_limits, try_except, bind.
  rewrite (usage_ref_get_fault _ _ _ _ Hf). reflexivity.
Qed.

Lemma check_missing L E now device_id st :
  usage_get_fault E = None ->
  usage st !! device_id = None ->
  check_rate_limits L E now device_id st =
    match usage_set_fault E with
    | None => (Ok (true, "First time user"),
               set_usage st (<[device_id := zero_record now]> (usage st)))
    | Some _ => (Ok (false, "Service error"), st)
    end.
Proof.
  intros Hf Hr. unfold check_rate_limits, try_except, bind.
  rewrite (usage_ref_get_ok _ _ _ Hf), Hr.
  unfold usage_ref_set, bind, faulty.
  destruct (usage_set_fault E); reflexivity.
Qed.

(** C1 on the code: the order of the tests is the one claimed, but below
    the lifetime cap the pruning compares each stored stamp, which the store
    returns with the UTC zone, with a naive clock reading; the comparison
    raises and the check answers "Service error". For the record of the
    sliding-window scenario (requests 61 s, 30 s and 59 min old) and a
    minute ceiling of 1, the verdict described is the minute denial, and
    with the deployed limits it is "Within limits"; the code answers
    "Service error" both times. At the cap it answers as claimed. *)
Theorem check_rate_limits_comparison_raises :
  datetime_gt (Aware (now0 - seconds 30)) (Naive (now0 - timedelta_minute))
  = Raise (TypeError "can't compare offset-naive and offset-aware datetimes")
  /\ described_verdict one_per_minute now0 sample_record
     = (false, "Rate limit exceeded. Please wait a minute.")
  /\ check_rate_limits one_per_minute calm now0 "f1" sample_store
     = (Ok (false, "Service error"), sample_store)
  /\ described_verdict RATE_LIMITS now0 sample_record = (true, "Within limits")
  /\ check_rate_limits RATE_LIMITS calm now0 "f1" sample_store
     = (Ok (false, "Service error"), sample_store)
  /\ check_rate_limits (mkLimits 10 100 500 3) calm now0 "f1" sample_store
     = (Ok (false, "Demo limit reached. Please upgrade to continue."), sample_store).
Proof.
  split; [reflexivity|]. split; [vm_compute; reflexivity|]. split.
  { by rewrite (check_existing _ calm now0 "f1" sample_store sample_record). }
  split; [vm_compute; reflexivity|]. split.
  { by rewrite (check_existing _ calm now0 "f1" sample_store sample_record). }
  by rewrite (check_existing _ calm now0 "f1" sample_store sample_record).
Qed.

(** A check never writes to a record that exists, whatever the backend does. *)
Lemma check_keeps_existing L E now device_id st r :
  usage st !! device_id = Some r ->
  snd (check_rate_limits L E now device_id st) = st.
Proof.
  intros Hr. destruct (usage_get_fault E) as [e|] eqn:Hf.
  - by rewrite (check_fault _ _ _ _ _ _ Hf).
  - by rewrite (check_existing _ _ _ _ _ _ Hf Hr).
Qed.

Lemma track_usage_accepted E now device_id success tokens st r :
  usage st !! device_id = Some r ->
  usage_update_fault E = None ->
  track_usage E now device_id success tokens st
  = (Ok tt, set_usage st (<[device_id := usage_transforms now success tokens r]>
                            (usage st))).
Proof.
  intros Hr Hf. unfold track_usage, try_except, usage_ref_update, bind, faulty.
  rewrite Hf. simpl. by rewrite Hr.
Qed.

Lemma total_of_insert device_id id' doc st :
  total_of id' (set_usage st (<[device_id := doc]> (usage st))) =
  if decide (device_id = id') then default 0 (total_requests doc) else total_of id' st.
Proof.
  unfold total_of, set_usage. simpl. rewrite lookup_insert.
  by destruct (decide (device_id = id')).
Qed.

(** No check changes the lifetime count of any device, read as 0 when the
    device has no record. *)
Lemma check_total L E now device_id id' st :
  total_of id' (snd (check_rate_limits L E now device_id st)) = total_of id' st.
Proof.
  destruct (usage st !! device_id) as [r|] eqn:Hr.
  - by rewrite (check_keeps_existing _ _ _ _ _ _ Hr).
  - destruct (usage_get_fault E) as [e|] eqn:Hf.
    + by rewrite (check_fault _ _ _ _ _ _ Hf).
    + rewrite (check_missing _ _ _ _ _ Hf Hr).
      destruct (usage_set_fault E); [reflexivity|]. simpl.
      rewrite total_of_insert. destruct (decide (device_id = id')) as [->|]; [|reflexivity].
      unfold total_of. by rewrite Hr.
Qed.

(** C3, as the code has it: for a device whose usage record exists, any
    number of checks in a row leaves the whole store, hence every counter
    and window of the record, as it was; and whether or not the record
    exists, no number of checks changes the lifetime count of any device. *)
Theorem check_rate_limits_idempotent (L : RateLimits) (calls : list (Env * Time))
    (device_id : string) (st : Store) (r : UsageDoc) :
  usage st !! device_id = Some r ->
  check_repeatedly L calls device_id st = st
  /\ (forall st' id',
        total_of id' (check_repeatedly L calls device_id st') = total_of id' st').
Proof.
  intros Hr. split.
  - induction calls as [|[E now] rest IH]; simpl; [reflexivity|].
    rewrite (check_keeps_existing _ _ _ _ _ _ Hr). exact IH.
  - clear. induction calls as [|[E now] rest IH]; intros st' id'; simpl; [reflexivity|].
    by rewrite IH, check_total.
Qed.

Lemma check_rate_limits_idempotent_witness :
  check_repeatedly RATE_LIMITS [(calm, now0); (broken_read, now0 + 5); (calm, now0 + 9)]
                   "f1" sample_store = sample_store.
Proof.
  refine (proj1 _).
  apply (check_rate_limits_idempotent _ _ "f1" sample_store sample_record).
  reflexivity.
Defined.

(** C3, as stated, fails for a device that has no record yet: the first
    check writes the zero record. *)
Lemma check_rate_limits_writes_first_record :
  usage empty_store !! "f1" = None
  /\ check_rate_limits RATE_LIMITS calm now0 "f1" empty_store
     = (Ok (true, "First time user"),
        mkStore {[ "f1" := zero_record now0 ]} [])
  /\ usage (check_repeatedly RATE_LIMITS [(calm, now0)] "f1" empty_store) !! "f1"
     = Some (zero_record now0).
Proof.
  split; [reflexivity|]. split.
  - rewrite check_missing by reflexivity. simpl. unfold set_usage. simpl.
    by rewrite insert_empty.
  - simpl. rewrite check_missing by reflexivity. simpl. apply lookup_insert_eq.
Qed.

(** C6: when reading the usage record raises, or the record is missing and
    writing the first one raises, the check answers with a denial and the
    store is as before. *)
Theorem check_rate_limits_fails_closed (L : RateLimits) (E : Env) (now : Time)
    (device_id : string) (st : Store) :
  is_Some (usage_get_fault E)
  \/ (usage st !! device_id = None /\ is_Some (usage_set_fault E)) ->
  check_rate_limits L E now device_id st = (Ok (false, "Service error"), st).
Proof.
  intros [[e He] | [Hr [e He]]].
  - by apply check_fault with e.
  - destruct (usage_get_fault E) as [e'|] eqn:Hf.
    + by apply check_fault with e'.
    + rewrite check_missing by done. by rewrite He.
Qed.

Lemma check_rate_limits_fails_closed_witness :
  check_rate_limits RATE_LIMITS broken_read now0 "f1" sample_store
  = (Ok (false, "Service error"), sample_store).
Proof.
  apply check_rate_limits_fails_closed. left. eexists. reflexivity.
Defined.

(** ** Frame rules for the store monad *)

Section Frame.

Variable R : Store -> Store -> Prop.
Hypothesis R_refl : forall st, R st st.
Hypothesis R_trans : forall a b c, R a b -> R b c -> R a c.

Lemma keeps_ret {A} (a : A) : keeps R (ret a).
Proof. intros st. apply R_refl. Qed.

Lemma keeps_raise {A} (e : exn) : keeps R (@raise A e).
Proof. intros st. apply R_refl. Qed.

Lemma keeps_lift {A} (r : Result A) : keeps R (lift r).
Proof. intros st. apply R_refl. Qed.

Lemma keeps_faulty (f : option exn) : keeps R (faulty f).
Proof. destruct f; [apply keeps_raise | apply keeps_ret]. Qed.

Lemma keeps_bind {A B} (m : M A) (k : A -> M B) :
  keeps R m -> (forall a, keeps R (k a)) -> keeps R (bind m k).
Proof.
  intros Hm Hk st. unfold bind. specialize (Hm st).
  destruct (m st) as [[a|e] st']; simpl in *; [|exact Hm].
  exact (R_trans _ _ _ Hm (Hk a st')).
Qed.

Lemma keeps_try {A} (m : M A) (h : exn -> M A) :
  keeps R m -> (forall e, keeps R (h e)) -> keeps R (try_except m h).
Proof.
  intros Hm Hh st. unfold try_except. specialize (Hm st).
  destruct (m st) as [[a|e] st']; simpl in *; [exact Hm|].
  exact (R_trans _ _ _ Hm (Hh e st')).
Qed.

(** The reads of the store. *)
Lemma keeps_usage_ref_get E device_id : keeps R (usage_ref_get E device_id).
Proof.
  apply keeps_bind; [apply keeps_faulty|]. intros _ st. apply R_refl.
Qed.

Lemma keeps_get_next_available_key E : keeps R (get_next_available_key E).
Proof.
  assert (Hdec : forall k, keeps R (decrypt_key E k)).
  { intros k. apply keeps_try; [|intros; apply keeps_ret].
    apply keeps_bind; [|intros; apply keeps_ret].
    apply keeps_try; [apply keeps_lift | intros; apply keeps_raise]. }
  unfold get_next_available_key. apply keeps_bind.
  { apply keeps_bind; [apply keeps_faulty|]. intros _ st. apply R_refl. }
  intros [|key_doc ?]; [apply keeps_ret|].
  destruct (_ >=? _); [|apply Hdec].
  apply keeps_bind.
  { apply keeps_bind; [apply keeps_faulty|]. intros _ st. apply R_refl. }
  intros [|key_doc' ?]; [apply keeps_ret | apply Hdec].
Qed.

(** The handlers keep what the quota check and the usage update keep. *)
Hypothesis R_check : forall L E now device_id,
  keeps R (check_rate_limits L E now device_id).
Hypothesis R_track : forall E now device_id success tokens,
  keeps R (track_usage E now device_id success tokens).

Lemma keeps_ai_proxy L E request : keeps R (ai_proxy L E request).
Proof.
  unfold ai_proxy. destruct (String.eqb _ "OPTIONS"); [apply keeps_ret|].
  apply keeps_try; [|intros; apply keeps_ret].
  destruct (negb _); [apply keeps_ret|].
  apply keeps_bind; [apply keeps_lift|]. intros request_data.
  destruct (negb _); [apply keeps_ret|].
  apply keeps_bind; [apply keeps_lift|]. intros device_id.
  apply keeps_bind; [apply R_check|]. intros [allowed message].
  destruct (negb _); [apply keeps_ret|].
  apply keeps_bind; [apply keeps_get_next_available_key|].
  intros [[|c rest]|]; try apply keeps_ret.
  apply keeps_bind.
  - unfold track_result. destruct (proxy_tokens _); try apply keeps_ret. apply R_track.
  - intros _. destruct (proxy_to_gemini _ _ _); apply keeps_ret.
Qed.

Lemma keeps_get_device_status iso L E now request :
  keeps R (get_device_status iso L E now request).
Proof.
  unfold get_device_status. destruct (String.eqb _ "OPTIONS"); [apply keeps_ret|].
  apply keeps_try; [|intros; apply keeps_ret].
  apply keeps_bind.
  - destruct (multi_get _ _) as [[|c rest]|]; first [apply keeps_ret | apply keeps_lift].
  - intros device_id. apply keeps_bind; [apply keeps_usage_ref_get|].
    intros; apply keeps_ret.
Qed.

Lemma keeps_run_ops ops st : R st (run_ops ops st).
Proof.
  unfold run_ops. revert st. induction ops as [|op ops IH]; intros st; simpl.
  - apply R_refl.
  - apply R_trans with (run_op op st); [|apply IH].
    destruct op; simpl.
    + apply R_check.
    + apply R_track.
    + apply keeps_get_next_available_key.
    + apply keeps_ai_proxy.
    + apply keeps_get_device_status.
Qed.

End Frame.

(** ** The usage update *)

Lemma ArrayUnion_one now window :
  ArrayUnion [now] window = Some (add_once now window).
Proof.
  unfold ArrayUnion, add_once. simpl. by destruct (bool_decide _).
Qed.

Lemma track_usage_fault E now device_id success tokens st e :
  usage_update_fault E = Some e ->
  track_usage E now device_id success tokens st = (Ok tt, st).
Proof.
  intros Hf. unfold track_usage, try_except, usage_ref_update, bind, faulty.
  by rewrite Hf.
Qed.

Lemma track_usage_missing E now device_id success tokens st :
  usage st !! device_id = None ->
  track_usage E now device_id success tokens st = (Ok tt, st).
Proof.
  intros Hr. unfold track_usage, try_except, usage_ref_update, bind, faulty.
  destruct (usage_update_fault E); simpl; [reflexivity|]. by rewrite Hr.
Qed.

Lemma track_total E now device_id success tokens id' st :
  total_of id' st <= total_of id' (snd (track_usage E now device_id success tokens st)).
Proof.
  destruct (usage st !! device_id) as [r|] eqn:Hr.
  - unfold track_usage, try_except, usage_ref_update, bind, faulty.
    destruct (usage_update_fault E); simpl; [lia|]. rewrite Hr. simpl.
    rewrite total_of_insert. destruct (decide (device_id = id')) as [->|]; [|lia].
    unfold total_of. rewrite Hr. simpl. lia.
  - rewrite track_usage_missing by done. simpl. lia.
Qed.

(** C5, as the code has it: on an existing record, when the store accepts
    the update, the lifetime count grows by exactly 1, the count of
    successes by 1 exactly when [success] holds, the token total by
    [tokens_used], the time of the last request becomes the current one, and
    each of the three windows gets the current time stamp at its end unless
    it holds it already; and over any sequence of operations of the vendor
    the lifetime count of a device never decreases. *)
Theorem track_usage_effect (E : Env) (now : Time) (device_id : string)
    (success : bool) (tokens_used : Z) (st : Store) (r : UsageDoc) :
  usage st !! device_id = Some r ->
  usage_update_fault E = None ->
  (exists r',
     track_usage E now device_id success tokens_used st
       = (Ok tt, set_usage st (<[device_id := r']> (usage st)))
     /\ total_requests r' = Some (default 0 (total_requests r) + 1)
     /\ successful_requests r'
        = Some (default 0 (successful_requests r) + if success then 1 else 0)
     /\ total_tokens r' = Some (default 0 (total_tokens r) + tokens_used)
     /\ last_request r' = Some now
     /\ requests_this_minute r' = Some (add_once now (requests_this_minute r))
     /\ requests_this_hour r' = Some (add_once now (requests_this_hour r))
     /\ requests_this_day r' = Some (add_once now (requests_this_day r))
     /\ created_at r' = created_at r)
  /\ (forall ops id' st', total_of id' st' <= total_of id' (run_ops ops st')).
Proof.
  intros Hr Hf. split.
  - exists (usage_transforms now success tokens_used r). split.
    + by apply track_usage_accepted.
    + simpl. rewrite !ArrayUnion_one. repeat split.
  - intros ops id' st'.
    apply (keeps_run_ops (fun a b => total_of id' a <= total_of id' b)).
    + intros; lia.
    + intros; lia.
    + intros L0 E0 now1 id1 st1. rewrite check_total. lia.
    + intros E0 now1 id1 success1 tokens1 st1. apply track_total.
Qed.

Lemma track_usage_effect_witness :
  track_usage calm now0 "f1" true 7 sample_store
  = (Ok tt, mkStore {[ "f1" := sample_record_after ]} []).
Proof.
  destruct (track_usage_effect calm now0 "f1" true 7 sample_store sample_record
              eq_refl eq_refl) as [(r' & Hrun & Htot & Hsucc & Htok & Hlast
                                     & Hmin & Hhour & Hday & Hcreated) _].
  rewrite Hrun. f_equal. unfold set_usage, sample_store. simpl. f_equal.
  rewrite insert_singleton_eq. f_equal.
  destruct r'; simpl in *. subst. reflexivity.
Defined.

(** C5, as stated, fails when the window already holds the current time
    stamp (a second request in the same microsecond): the counters grow,
    the windows do not. *)
Lemma track_usage_same_instant :
  exists r',
    track_usage calm now0 "f1" true 7 same_instant_store
      = (Ok tt, mkStore {[ "f1" := r' ]} [])
    /\ total_requests r' = Some 2
    /\ requests_this_minute r' = Some [now0]
    /\ requests_this_hour r' = Some [now0]
    /\ requests_this_day r' = Some [now0].
Proof.
  eexists. split.
  - unfold track_usage, try_except, usage_ref_update, bind, faulty. simpl.
    unfold same_instant_store, set_usage. simpl.
    rewrite lookup_singleton_eq, insert_singleton_eq. reflexivity.
  - simpl. rewrite !ArrayUnion_one. repeat split.
Qed.

(** Each accepted update of a device with a record adds one to its lifetime
    count. *)
Lemma accepted_updates_total device_id ops st :
  is_Some (usage st !! device_id) ->
  Forall (accepted_update device_id) ops ->
  total_of device_id (run_ops ops st) = total_of device_id st + len ops
  /\ is_Some (usage (run_ops ops st) !! device_id).
Proof.
  intros Hsome Hops. revert st Hsome.
  induction Hops as [|op ops Hop _ IH]; intros st [r Hr].
  - unfold len. simpl. split; [lia | eauto].
  - destruct op as [| E now id success tokens | | |]; try contradiction.
    destruct Hop as [-> Hf].
    change (run_ops (RecordUsage E now device_id success tokens :: ops) st)
      with (run_ops ops (snd (track_usage E now device_id success tokens st))).
    rewrite (track_usage_accepted _ _ _ _ _ _ _ Hr Hf). simpl snd.
    destruct (IH (set_usage st (<[device_id := usage_transforms now success tokens r]>
                                  (usage st)))) as [IHtotal IHsome].
    { simpl. rewrite lookup_insert_eq. eauto. }
    split; [|exact IHsome].
    rewrite IHtotal, total_of_insert. destruct (decide (device_id = device_id)); [|done].
    unfold total_of, len. rewrite Hr. simpl length. simpl. lia.
Qed.

(** X9: the lifetime limit: once the usage update has been accepted
    [requests_per_device] times for a device with a record, the check denies
    with the upgrade message, whatever the windows hold. *)
Lemma lifetime_limit_reached L E now device_id ops st :
  is_Some (usage st !! device_id) ->
  0 <= total_of device_id st ->
  Forall (accepted_update device_id) ops ->
  requests_per_device L <= len ops ->
  usage_get_fault E = None ->
  fst (check_rate_limits L E now device_id (run_ops ops st))
  = Ok (false, "Demo limit reached. Please upgrade to continue.").
Proof.
  intros Hsome Hpos Hops Hlen Hf.
  destruct (accepted_updates_total device_id ops st Hsome Hops) as [Htotal [r Hr]].
  rewrite (check_existing _ _ _ _ _ _ Hf Hr). simpl.
  unfold quota_verdict. unfold total_of in Htotal. rewrite Hr in Htotal. simpl in Htotal.
  destruct (Z.geb_spec (default 0 (total_requests r)) (requests_per_device L));
    [reflexivity|].
  unfold total_of in Hpos. lia.
Qed.

(** The scenario of the design document: ten requests of one device within
    a minute, with a minute ceiling of 10. The verdict described denies the
    eleventh and allows a request one minute and one second after the last
    one; the code, unable to compare the stored stamps with its clock,
    answers "Service error" both times. *)
Example ten_requests_scenario :
  (let r := default (zero_record now0)
              (usage (run_ops ten_requests empty_store) !! "f1") in
   described_verdict RATE_LIMITS (now0 + seconds 30) r
   = (false, "Rate limit exceeded. Please wait a minute.")
   /\ described_verdict RATE_LIMITS (now0 + seconds 9 + seconds 61) r
      = (true, "Within limits"))
  /\ fst (check_rate_limits RATE_LIMITS calm (now0 + seconds 30) "f1"
            (run_ops ten_requests empty_store))
     = Ok (false, "Service error")
  /\ fst (check_rate_limits RATE_LIMITS calm (now0 + seconds 9 + seconds 61) "f1"
            (run_ops ten_requests empty_store))
     = Ok (false, "Service error")
  /\ total_of "f1" (run_ops ten_requests empty_store) = 10.
Proof. repeat split; vm_compute; reflexivity. Qed.

(** ** The proxy handler *)

Lemma check_keeps_keys L E now device_id :
  keeps (fun a b => shared_keys a = shared_keys b) (check_rate_limits L E now device_id).
Proof.
  intros st. destruct (usage st !! device_id) as [r|] eqn:Hr.
  - by rewrite (check_keeps_existing _ _ _ _ _ _ Hr).
  - destruct (usage_get_fault E) as [e|] eqn:Hf.
    + by rewrite (check_fault _ _ _ _ _ _ Hf).
    + rewrite (check_missing _ _ _ _ _ Hf Hr). by destruct (usage_set_fault E).
Qed.

Lemma track_keeps_keys E now device_id success tokens :
  keeps (fun a b => shared_keys a = shared_keys b)
        (track_usage E now device_id success tokens).
Proof.
  intros st. unfold track_usage, try_except, usage_ref_update, bind, faulty.
  destruct (usage_update_fault E); simpl; [reflexivity|].
  by destruct (usage st !! device_id).
Qed.

(** C7, as the code has it: no operation of the vendor writes to the key
    pool; after any sequence of checks, usage updates, key selections and
    handled requests every pooled key, with its count of today's uses, is as
    before. *)
Theorem key_pool_is_read_only (ops : list Op) (st : Store) :
  shared_keys (run_ops ops st) = shared_keys st.
Proof.
  symmetry. revert ops st.
  apply (keeps_run_ops (fun a b => shared_keys a = shared_keys b)).
  - reflexivity.
  - intros a b c Hab Hbc. by rewrite Hab.
  - apply check_keeps_keys.
  - apply track_keeps_keys.
Qed.

(** C7, as stated, fails: a request served with the key [k1] leaves the
    count of today's uses of [k1] at 3. *)
Lemma served_request_keeps_used_today :
  fst (get_next_available_key calm pool_store) = Ok (Some "secret:ai-key-k1")
  /\ status_of (ai_proxy RATE_LIMITS calm sample_request pool_store) = 200
  /\ map used_today (shared_keys pool_store) = [Some 3]
  /\ map used_today
       (shared_keys (snd (ai_proxy RATE_LIMITS calm sample_request pool_store)))
     = [Some 3].
Proof. repeat split; vm_compute; reflexivity. Qed.

(** A check that denies has written nothing. *)
Lemma check_denied_keeps_store L E now device_id st message :
  fst (check_rate_limits L E now device_id st) = Ok (false, message) ->
  snd (check_rate_limits L E now device_id st) = st.
Proof.
  destruct (usage st !! device_id) as [r|] eqn:Hr.
  - intros _. by apply check_keeps_existing with r.
  - destruct (usage_get_fault E) as [e|] eqn:Hf.
    + by rewrite (check_fault _ _ _ _ _ _ Hf).
    + rewrite (check_missing _ _ _ _ _ Hf Hr).
      destruct (usage_set_fault E); simpl; [reflexivity | congruence].
Qed.

Lemma check_never_raises L E now device_id st :
  exists verdict, fst (check_rate_limits L E now device_id st) = Ok verdict.
Proof.
  destruct (usage_get_fault E) as [e|] eqn:Hf.
  - rewrite (check_fault _ _ _ _ _ _ Hf). eauto.
  - destruct (usage st !! device_id) as [r|] eqn:Hr.
    + rewrite (check_existing _ _ _ _ _ _ Hf Hr). eauto.
    + rewrite (check_missing _ _ _ _ _ Hf Hr). destruct (usage_set_fault E); eauto.
Qed.

Lemma select_keeps_store E st : snd (get_next_available_key E st) = st.
Proof.
  symmetry. apply (keeps_get_next_available_key eq); [reflexivity|].
  intros a b c -> ->. reflexivity.
Qed.

Lemma track_result_never_raises E device_id result st :
  exists st', track_result E device_id result st = (Ok tt, st').
Proof.
  unfold track_result. destruct (proxy_tokens result); try (eexists; reflexivity).
  unfold track_usage, try_except.
  destruct (usage_ref_update _ _ _ _) as [[[]|e] st']; eexists; reflexivity.
Qed.

(** C10, as the code has it: a request answered 429 leaves the store as it
    was; a request answered 503 leaves it as the quota check left it, that
    is unchanged when the device had a usage record, and with at most the
    zero record of a first check when it had none; and the lifetime count of
    a device changes only in a request that obtained a key and called the
    upstream service, where the usage update runs whether the call succeeded
    (200) or failed (500). *)
Theorem denied_request_is_not_tracked (L : RateLimits) (E : Env)
    (request : Request) (st : Store) :
  let out := ai_proxy L E request st in
  (status_of out = 429 -> snd out = st)
  /\ (status_of out = 503 ->
      exists device_id,
        generate_device_id request = Ok device_id
        /\ snd out = snd (check_rate_limits L E (utcnow_check E) device_id st)
        /\ (is_Some (usage st !! device_id) -> snd out = st)
        /\ (usage st !! device_id = None ->
            snd out = st
            \/ snd out = set_usage st (<[device_id := zero_record (utcnow_check E)]>
                                         (usage st))))
  /\ (forall id', total_of id' (snd out) <> total_of id' st ->
      exists device_id request_data api_key,
        generate_device_id request = Ok device_id
        /\ get_json request = Ok request_data
        /\ let st1 := snd (check_rate_limits L E (utcnow_check E) device_id st) in
           let result := proxy_to_gemini E request_data api_key in
           fst (get_next_available_key E st1) = Ok (Some api_key)
           /\ snd out = snd (track_result E device_id result st1)
           /\ status_of out = if proxy_success result then 200 else 500).
Proof.
  intros out. subst out. unfold ai_proxy.
  destruct (String.eqb (method request) "OPTIONS").
  { unfold status_of; simpl. repeat split; intros; (lia || congruence). }
  unfold try_except, bind, lift.
  destruct (negb (String.eqb (method request) "POST")).
  { unfold status_of; simpl. repeat split; intros; (lia || congruence). }
  destruct (get_json request) as [request_data|e] eqn:Hjson.
  2:{ unfold status_of; simpl. repeat split; intros; (lia || congruence). }
  destruct (negb (truthy request_data)).
  { unfold status_of; simpl. repeat split; intros; (lia || congruence). }
  destruct (generate_device_id request) as [device_id|e] eqn:Hid.
  2:{ unfold status_of; simpl. repeat split; intros; (lia || congruence). }
  pose proof (fun id' => check_total L E (utcnow_check E) device_id id' st) as Htotal.
  pose proof (check_denied_keeps_store L E (utcnow_check E) device_id st) as Hdenied.
  pose proof (check_keeps_existing L E (utcnow_check E) device_id st) as Hexisting.
  pose proof (check_missing L E (utcnow_check E) device_id st) as Hmissing.
  pose proof (check_fault L E (utcnow_check E) device_id st) as Hfault.
  destruct (check_rate_limits L E (utcnow_check E) device_id st)
    as [[[allowed message]|e] st1] eqn:Hcheck; simpl in *.
  2:{ destruct (check_never_raises L E (utcnow_check E) device_id st) as [v Hv].
      rewrite Hcheck in Hv. discriminate. }
  specialize (Htotal : forall id', total_of id' st1 = total_of id' st).
  destruct allowed; simpl.
  2:{ unfold status_of; simpl. rewrite (Hdenied message eq_refl).
      repeat split; intros; (lia || congruence). }
  pose proof (select_keeps_store E st1) as Hselect.
  destruct (get_next_available_key E st1) as [[[[|c rest]|]|e] st2] eqn:Hkey;
    simpl in *; subst st2.
  - (* an empty secret: 503 *)
    unfold status_of; simpl. split; [intros; lia|]. split.
    + intros _. exists device_id. rewrite Hcheck. simpl.
      repeat split; [by intros [r Hr]; apply Hexisting with r|].
      intros Hnone. destruct (usage_get_fault E) as [e|] eqn:Hf.
      * specialize (Hfault e eq_refl). left. congruence.
      * specialize (Hmissing eq_refl Hnone).
        destruct (usage_set_fault E); inversion Hmissing; auto.
    + intros id' Hne. exfalso. apply Hne, Htotal.
  - (* a key: the upstream call, then the usage update *)
    destruct (track_result_never_raises E device_id
                (proxy_to_gemini E request_data (String c rest)) st1) as [st2 Htrack].
    rewrite Htrack. unfold status_of.
    split; [|split].
    + destruct (proxy_to_gemini _ _ _); simpl; intros; lia.
    + destruct (proxy_to_gemini _ _ _); simpl; intros; lia.
    + intros id' _. exists device_id, request_data, (String c rest).
      rewrite Hcheck. simpl. rewrite Hkey, Htrack. simpl.
      repeat split; destruct (proxy_to_gemini _ _ _); reflexivity.
  - (* no key: 503 *)
    unfold status_of; simpl. split; [intros; lia|]. split.
    + intros _. exists device_id. rewrite Hcheck. simpl.
      repeat split; [by intros [r Hr]; apply Hexisting with r|].
      intros Hnone. destruct (usage_get_fault E) as [e|] eqn:Hf.
      * specialize (Hfault e eq_refl). left. congruence.
      * specialize (Hmissing eq_refl Hnone).
        destruct (usage_set_fault E); inversion Hmissing; auto.
    + intros id' Hne. exfalso. apply Hne, Htotal.
  - (* the key query raised: 500 *)
    unfold status_of; simpl. repeat split; try (intros; lia).
    intros id' Hne. exfalso. apply Hne, Htotal.
Qed.

Lemma denied_request_is_not_tracked_witness :
  status_of (ai_proxy RATE_LIMITS calm sample_request capped_store) = 429
  /\ snd (ai_proxy RATE_LIMITS calm sample_request capped_store) = capped_store.
Proof.
  assert (H : status_of (ai_proxy RATE_LIMITS calm sample_request capped_store) = 429)
    by (vm_compute; reflexivity).
  split; [exact H|].
  exact (proj1 (denied_request_is_not_tracked RATE_LIMITS calm sample_request
                  capped_store) H).
Defined.

(** C10, as stated, fails for a first request that finds no key: the reply
    is 503 and the device now has a usage record. *)
Lemma first_request_without_key_leaves_record :
  status_of (ai_proxy RATE_LIMITS calm sample_request empty_store) = 503
  /\ usage empty_store !! sample_fingerprint = None
  /\ usage (snd (ai_proxy RATE_LIMITS calm sample_request empty_store))
       !! sample_fingerprint = Some (zero_record now0).
Proof. repeat split; vm_compute; reflexivity. Qed.

(** A request whose upstream call fails is answered 500 and is recorded
    all the same; one whose call succeeds is answered 200 and recorded. The
    device is one that was seen before and not served yet. *)
Example upstream_attempts_are_recorded :
  status_of (ai_proxy RATE_LIMITS upstream_timeout sample_request known_store) = 500
  /\ total_of sample_fingerprint
       (snd (ai_proxy RATE_LIMITS upstream_timeout sample_request known_store)) = 1
  /\ status_of (ai_proxy RATE_LIMITS calm sample_request known_store) = 200
  /\ total_of sample_fingerprint
       (snd (ai_proxy RATE_LIMITS calm sample_request known_store)) = 1
  /\ total_of sample_fingerprint known_store = 0.
Proof. repeat split; vm_compute; reflexivity. Qed.

(** ** The key selection *)

(** The selection scenario of the design document: of two active keys used
    3 and 7 times, the one used 3 times is taken. *)
Example selects_least_used :
  fst (get_next_available_key calm (mkStore ∅ scenario_pool))
  = Ok (Some "secret:ai-key-k3").
Proof. vm_compute. reflexivity. Qed.

Lemma insert_by_usage_elem x y l :
  In y (insert_by_usage x l) <-> y = x \/ In y l.
Proof.
  induction l as [|z l IH]; simpl; [intuition|].
  destruct (fst x <=? fst z); simpl; [intuition|]. rewrite IH. intuition.
Qed.

Lemma insert_by_usage_sorted x l :
  StronglySorted (fun a b => fst a <= fst b) l ->
  StronglySorted (fun a b => fst a <= fst b) (insert_by_usage x l).
Proof.
  induction 1 as [|z l Hl IH Hz]; simpl.
  - repeat constructor.
  - destruct (Z.leb_spec (fst x) (fst z)).
    + constructor; [by constructor|]. constructor; [lia|].
      eapply Forall_impl; [exact Hz|]. simpl. intros; lia.
    + constructor; [exact IH|]. apply Forall_forall. intros y Hy.
      apply list_elem_of_In, insert_by_usage_elem in Hy as [->|Hy]; [lia|].
      rewrite Forall_forall in Hz. apply Hz. by apply list_elem_of_In.
Qed.

Lemma with_usage_uses k u k' : with_usage k = Some (u, k') -> k' = k /\ uses k = u.
Proof.
  unfold with_usage, uses. destruct (used_today k); [|discriminate].
  intros [= <- <-]. done.
Qed.

(** The keys come out of the ordering by increasing number of uses, each
    paired with its own number. *)
Lemma order_by_used_today_sorted l :
  StronglySorted (fun a b => fst a <= fst b)
                 (fold_right insert_by_usage [] (omap with_usage l))
  /\ Forall (fun p => uses (snd p) = fst p /\ In (snd p) l /\ is_Some (used_today (snd p)))
            (fold_right insert_by_usage [] (omap with_usage l)).
Proof.
  induction l as [|k l [IHs IHf]]; simpl; [split; constructor|].
  destruct (with_usage k) as [[u k']|] eqn:Hk; simpl.
  - apply with_usage_uses in Hk as Hk'. destruct Hk' as [-> Hu]. split.
    + by apply insert_by_usage_sorted.
    + apply Forall_forall. intros p Hp.
      apply list_elem_of_In, insert_by_usage_elem in Hp as [->|Hp]; simpl.
      * unfold with_usage in Hk. destruct (used_today k) eqn:Hused; [|discriminate].
        repeat split; eauto.
      * rewrite Forall_forall in IHf. apply list_elem_of_In, IHf in Hp.
        intuition.
  - split; [exact IHs|]. eapply Forall_impl; [exact IHf|]. simpl. intuition.
Qed.

(** Every key that the ordering lists comes from the collection and has the
    ordered field. *)
Lemma order_by_used_today_elem l k :
  In k (order_by_used_today l) <-> In k l /\ is_Some (used_today k).
Proof.
  unfold order_by_used_today. rewrite in_map_iff. split.
  - intros ([u k'] & <- & Hp). simpl.
    destruct (order_by_used_today_sorted l) as [_ Hf].
    rewrite Forall_forall in Hf. apply list_elem_of_In, Hf in Hp. simpl in Hp. tauto.
  - intros [Hin [u Hu]]. exists (u, k). split; [reflexivity|].
    induction l as [|k0 l IH]; simpl in *; [contradiction|].
    destruct Hin as [->|Hin].
    + unfold with_usage at 1. rewrite Hu. simpl. apply insert_by_usage_elem. by left.
    + destruct (with_usage k0); simpl; [apply insert_by_usage_elem; right|]; by apply IH.
Qed.

(** The first key of the ordering is used no more than any other one. *)
Lemma order_by_used_today_head l k rest :
  order_by_used_today l = k :: rest ->
  Forall (fun k' => uses k <= uses k') rest.
Proof.
  unfold order_by_used_today. intros Hl.
  destruct (order_by_used_today_sorted l) as [Hs Hf].
  destruct (fold_right insert_by_usage [] (omap with_usage l)) as [|[u k0] ps];
    [discriminate|].
  simpl in Hl. injection Hl as -> <-.
  apply StronglySorted_inv in Hs as [_ Hhead]. apply Forall_cons in Hf as [[Hu _] Hf].
  simpl in *. apply Forall_map. rewrite Forall_forall in Hhead, Hf |- *.
  intros p Hp. specialize (Hhead p Hp). destruct (Hf p Hp) as [Hup _]. lia.
Qed.

(** The least used active key, as the first query returns it. *)
Lemma query_least_used_ok E st :
  keys_query_fault E = None ->
  query_least_used E st
  = (Ok (firstn 1 (order_by_used_today (List.filter is_active (shared_keys st)))), st).
Proof. intros Hf. unfold query_least_used, bind, faulty. by rewrite Hf. Qed.

Lemma query_under_1000_ok E st :
  keys_fallback_fault E = None ->
  query_under_1000 E st
  = (Ok (firstn 1 (List.filter (fun k => default 0 (used_today k) <? 1000)
                     (order_by_used_today (List.filter is_active (shared_keys st))))),
     st).
Proof. intros Hf. unfold query_under_1000, bind, faulty. by rewrite Hf. Qed.

Lemma decrypt_key_secret E k st : decrypt_key E k st = (Ok (secret_of E k), st).
Proof.
  unfold decrypt_key, get_secret, secret_of, try_except, bind, lift.
  by destruct (access_secret E _).
Qed.

(** Keys that are used as much as each other stay in document-id order. *)
Lemma order_by_used_today_ties u l :
  Forall (fun k => used_today k = Some u) l -> order_by_used_today l = l.
Proof.
  unfold order_by_used_today. intros Hl.
  assert (Hfold : fold_right insert_by_usage [] (omap with_usage l)
                  = map (fun k => (u, k)) l).
  { induction Hl as [|k l Hk _ IH]; simpl; [reflexivity|].
    unfold with_usage at 1. rewrite Hk. simpl.
    change (list_omap _ _ with_usage l) with (omap with_usage l). rewrite IH.
    destruct l as [|k' l]; simpl; [reflexivity|]. by rewrite Z.leb_refl. }
  rewrite Hfold, map_map. simpl. apply map_id.
Qed.

(** Of two active keys used 5 times each, the first one by document id is
    taken: it has quota left, and the second query is not made. *)
Example ties_keep_document_order :
  order_by_used_today tied_pool = tied_pool
  /\ fst (get_next_available_key calm (mkStore ∅ tied_pool))
     = Ok (Some "secret:ai-key-a").
Proof.
  split; [apply (order_by_used_today_ties 5); repeat constructor|].
  vm_compute. reflexivity.
Qed.

(** X10: when the least used active key has quota left, its secret is
    returned: the key is active, has [used_today < daily_quota], and no
    active key has been used less. *)
Lemma selects_least_used_key E st k rest :
  keys_query_fault E = None ->
  order_by_used_today (List.filter is_active (shared_keys st)) = k :: rest ->
  uses k < default 1000 (daily_quota k) ->
  get_next_available_key E st = (Ok (secret_of E k), st)
  /\ In k (shared_keys st) /\ eligible k = true
  /\ (forall k', In k' (shared_keys st) -> is_active k' = true ->
                 is_Some (used_today k') -> uses k <= uses k').
Proof.
  intros Hf Horder Hquota.
  assert (Hk : In k (order_by_used_today (List.filter is_active (shared_keys st))))
    by (rewrite Horder; by left).
  apply order_by_used_today_elem in Hk as [Hk _]. apply filter_In in Hk as [Hin Hactive].
  split; [|split; [exact Hin|split]].
  - unfold get_next_available_key, bind. rewrite (query_least_used_ok _ _ Hf), Horder.
    simpl. fold (uses k).
    destruct (Z.geb_spec (uses k) (default 1000 (daily_quota k))); [lia|].
    apply decrypt_key_secret.
  - unfold eligible. rewrite Hactive. simpl. fold (uses k). by apply Z.ltb_lt.
  - intros k' Hin' Hactive' Hused'.
    assert (Hk' : In k' (order_by_used_today (List.filter is_active (shared_keys st)))).
    { apply order_by_used_today_elem. split; [|exact Hused']. by apply filter_In. }
    rewrite Horder in Hk'. destruct Hk' as [->|Hk']; [lia|].
    apply order_by_used_today_head in Horder. rewrite Forall_forall in Horder.
    apply Horder. by apply list_elem_of_In.
Qed.

(** X21: when the least used active key is at or over its quota, the second
    query finds that same key again if it was used less than 1000 times, and
    no key otherwise: it never finds another key. *)
Lemma fallback_finds_same_key E st k rest :
  keys_query_fault E = None ->
  keys_fallback_fault E = None ->
  order_by_used_today (List.filter is_active (shared_keys st)) = k :: rest ->
  default 1000 (daily_quota k) <= uses k ->
  get_next_available_key E st
  = (Ok (if uses k <? 1000 then secret_of E k else None), st).
Proof.
  intros Hf Hf2 Horder Hquota.
  unfold get_next_available_key, bind. rewrite (query_least_used_ok _ _ Hf), Horder.
  simpl. fold (uses k).
  destruct (Z.geb_spec (uses k) (default 1000 (daily_quota k))); [|lia].
  rewrite (query_under_1000_ok _ _ Hf2), Horder. simpl. fold (uses k).
  destruct (Z.ltb_spec (uses k) 1000); simpl; [apply decrypt_key_secret|].
  apply order_by_used_today_head in Horder.
  replace (List.filter (fun k0 => default 0 (used_today k0) <? 1000) rest) with (@nil KeyDoc);
    [reflexivity|].
  symmetry. induction Horder as [|k' rest' Hk' _ IH]; simpl; [reflexivity|].
  fold (uses k'). destruct (Z.ltb_spec (uses k') 1000); [lia | exact IH].
Qed.

(** C2 on the code: the second query compares with the constant 1000 and not
    with the quota of each key. With a single key at its own quota of 5, no
    key is eligible and yet the key is handed out; with an exhausted least
    used key at 1000 and an eligible key used 1500 times out of 2000, no key
    is handed out. *)
Theorem fallback_uses_fixed_threshold :
  List.filter eligible exhausted_pool = []
  /\ fst (get_next_available_key calm (mkStore ∅ exhausted_pool))
     = Ok (Some "secret:ai-key-k1")
  /\ map key_id (List.filter eligible uneven_pool) = ["k2"]
  /\ fst (get_next_available_key calm (mkStore ∅ uneven_pool)) = Ok None.
Proof. repeat split; vm_compute; reflexivity. Qed.

(** ** The status handler *)

(** C9, as the code has it: for a request other than OPTIONS whose device id
    resolves and whose record can be read, the reply is 200 with a JSON
    object holding [device_id], [status], [requests_used],
    [requests_remaining] and [daily_limit]; [status] is "new" exactly when
    the device has no record, "active" when it has one with a lifetime count
    below the cap and "limit_reached" otherwise; [requests_remaining] is the
    cap without a record and [max 0 (cap - count)] with one (the same thing
    for a cap that is not negative); [created_at] is present exactly when
    the record exists. The store is not written. *)
Theorem get_device_status_fields (isoformat : Time -> string) (L : RateLimits)
    (E : Env) (now : Time) (request : Request) (st : Store) (device_id : string) :
  String.eqb (method request) "OPTIONS" = false ->
  status_device_id request = Ok device_id ->
  usage_get_fault E = None ->
  exists fields,
    get_device_status isoformat L E now request st = (Ok (reply fields 200), st)
    /\ let doc := usage st !! device_id in
       let total := total_of device_id st in
       let cap := requests_per_device L in
       dict_lookup fields "device_id" = Some (JStr device_id)
       /\ dict_lookup fields "status"
          = Some (JStr match doc with
                       | None => "new"
                       | Some _ => if total <? cap then "active" else "limit_reached"
                       end)
       /\ dict_lookup fields "requests_used" = Some (JInt total)
       /\ dict_lookup fields "requests_remaining"
          = Some (JInt match doc with
                       | None => cap
                       | Some _ => Z.max 0 (cap - total)
                       end)
       /\ (0 <= cap ->
           dict_lookup fields "requests_remaining" = Some (JInt (Z.max 0 (cap - total))))
       /\ dict_lookup fields "daily_limit" = Some (JInt (requests_per_day L))
       /\ dict_lookup fields "created_at"
          = match doc with
            | None => None
            | Some r => Some (JStr (isoformat (default now (created_at r))))
            end.
Proof.
  intros Hmethod Hid Hget.
  exists (status_fields isoformat L now device_id (usage st !! device_id)). split.
  - unfold get_device_status. rewrite Hmethod.
    unfold try_except, bind. unfold status_device_id in Hid.
    destruct (multi_get (args request) "device_id") as [[|c rest]|];
      try (unfold lift; rewrite Hid); try (injection Hid as <-; unfold ret);
      rewrite (usage_ref_get_ok _ _ _ Hget); reflexivity.
  - unfold total_of. destruct (usage st !! device_id) as [r|]; simpl.
    + repeat split.
    + repeat split. intros Hcap. do 2 f_equal. lia.
Qed.

Lemma get_device_status_fields_witness :
  exists fields,
    get_device_status (fun t => pretty t) RATE_LIMITS calm now0 status_request status_store
    = (Ok (reply fields 200), status_store)
    /\ dict_lookup fields "status" = Some (JStr "active")
    /\ dict_lookup fields "requests_used" = Some (JInt 3)
    /\ dict_lookup fields "requests_remaining" = Some (JInt 997)
    /\ dict_lookup fields "created_at" = Some (JStr (pretty (now0 - seconds 3600))).
Proof.
  destruct (get_device_status_fields (fun t => pretty t) RATE_LIMITS calm now0
              status_request status_store "cam-1" eq_refl eq_refl eq_refl)
    as (fields & Hrun & Hid & Hstatus & Hused & Hleft & _ & Hday & Hcreated).
  exists fields. split; [exact Hrun|].
  rewrite Hstatus, Hused, Hleft, Hcreated. repeat split.
Defined.

(** C9, as stated, fails for a device without a record: the object of the
    reply has no [created_at]. *)
Lemma new_device_status_lacks_created_at :
  get_device_status (fun t => pretty t) RATE_LIMITS calm now0 status_request empty_store
  = (Ok (reply (status_fields (fun t => pretty t) RATE_LIMITS now0 "cam-1" None) 200),
     empty_store)
  /\ map fst (status_fields (fun t => pretty t) RATE_LIMITS now0 "cam-1" None)
     = ["device_id"; "status"; "requests_used"; "requests_remaining"; "daily_limit"]
  /\ dict_lookup (status_fields (fun t => pretty t) RATE_LIMITS now0 "cam-1" None)
       "created_at" = None.
Proof. repeat split. Qed.

(** ** The device authenticator *)




(** ** The fingerprint *)

Lemma string_length_app (s t : string) :
  String.length (s ++ t) = (String.length s + String.length t)%nat.
Proof. induction s as [|c s IH]; simpl; [reflexivity | by rewrite IH]. Qed.

Lemma string_all_app p (s t : string) :
  string_all p (s ++ t) = string_all p s && string_all p t.
Proof.
  induction s as [|c s IH]; simpl; [reflexivity|].
  by rewrite IH, andb_assoc.
Qed.

Lemma substring_prefix_length (n : nat) (s : string) :
  (n <= String.length s)%nat -> String.length (substring 0 n s) = n.
Proof.
  revert s. induction n as [|n IH]; intros [|c s] Hn; simpl in *;
    try lia; try reflexivity.
  rewrite IH; lia.
Qed.

Lemma substring_prefix_all p (n : nat) (s : string) :
  string_all p s = true -> string_all p (substring 0 n s) = true.
Proof.
  revert s. induction n as [|n IH]; intros [|c s]; simpl; try reflexivity.
  intros [Hc Hs]%andb_true_iff. by rewrite Hc, IH.
Qed.

Lemma hex_word_length k x : String.length (SHA256.hex_word k x) = k.
Proof. induction k as [|k IH]; simpl; [reflexivity | by rewrite IH]. Qed.

Lemma hex_digit_is_hex d : 0 <= d < 16 -> is_hex (SHA256.hex_digit d) = true.
Proof.
  intros Hd. unfold SHA256.hex_digit, is_hex, code.
  destruct (Z.ltb_spec d 10); rewrite nat_ascii_embedding, Z2Nat.id by lia;
    apply orb_true_iff; [left | right]; apply andb_true_iff; split; apply Z.leb_le; lia.
Qed.

Lemma hex_word_all_hex k x : string_all is_hex (SHA256.hex_word k x) = true.
Proof.
  induction k as [|k IH]; simpl; [reflexivity|].
  rewrite IH, hex_digit_is_hex; [reflexivity|].
  apply Z.mod_pos_bound. lia.
Qed.

Lemma concat_cons (x : string) (l : list string) :
  String.concat "" (x :: l) = (x ++ String.concat "" l)%string.
Proof.
  destruct l as [|y l]; simpl; [|reflexivity].
  induction x as [|c x IH]; [reflexivity|].
  change (String c x = String c (x ++ "")). congruence.
Qed.

Lemma concat_words_length k (ws : list Z) :
  String.length (String.concat "" (map (SHA256.hex_word k) ws)) = (length ws * k)%nat.
Proof.
  induction ws as [|w ws IH]; [reflexivity|].
  rewrite map_cons, concat_cons, string_length_app, hex_word_length, IH.
  simpl. lia.
Qed.

Lemma concat_words_all_hex k (ws : list Z) :
  string_all is_hex (String.concat "" (map (SHA256.hex_word k) ws)) = true.
Proof.
  induction ws as [|w ws IH]; [reflexivity|].
  by rewrite map_cons, concat_cons, string_all_app, hex_word_all_hex, IH.
Qed.

Lemma hexdigest_length msg : String.length (SHA256.hexdigest msg) = 64%nat.
Proof. unfold SHA256.hexdigest. by rewrite concat_words_length. Qed.

Lemma hexdigest_all_hex msg : string_all is_hex (SHA256.hexdigest msg) = true.
Proof. unfold SHA256.hexdigest. apply concat_words_all_hex. Qed.

(** The digest of the standard test messages. *)
Example sha256_empty :
  SHA256.hexdigest []
  = "e3b0c44298fc1c149afbf4c8996fb92427ae41e4649b934ca495991b7852b855".
Proof. vm_compute. reflexivity. Qed.

Example sha256_abc :
  SHA256.hexdigest (encode "abc")
  = "ba7816bf8f01cfea414140de5dae2223b00361a396177a9cb410ff61f20015ad".
Proof. vm_compute. reflexivity. Qed.

(** The fingerprint is a function of the three signals. *)
Lemma generate_device_id_signals request info :
  device_info request = Some info ->
  generate_device_id request
  = Ok (substring 0 16
          (SHA256.hexdigest
             (encode (source_ip request ++ ":" ++ user_agent request ++ ":"
                      ++ json_dumps true info)))).
Proof.
  unfold device_info, generate_device_id, source_ip, user_agent.
  destruct (get_json request) as [[| | | | |kv]|e]; try discriminate.
  intros [= <-]. by destruct (multi_get (headers request) "X-Forwarded-For").
Qed.

(** C4: two requests with the same source address (the forwarded one, or
    the peer address without it), the same user agent and the same
    [device_info] in their JSON object get the same fingerprint, whatever
    else they carry; the fingerprint is 16 lower-case hexadecimal digits. *)
Theorem generate_device_id_deterministic (r1 r2 : Request) (info : json) :
  source_ip r1 = source_ip r2 ->
  user_agent r1 = user_agent r2 ->
  device_info r1 = Some info ->
  device_info r2 = Some info ->
  exists fingerprint,
    generate_device_id r1 = Ok fingerprint
    /\ generate_device_id r2 = Ok fingerprint
    /\ String.length fingerprint = 16%nat
    /\ string_all is_hex fingerprint = true.
Proof.
  intros Hip Hua Hinfo1 Hinfo2.
  rewrite (generate_device_id_signals _ _ Hinfo1), (generate_device_id_signals _ _ Hinfo2).
  rewrite Hip, Hua. eexists. split; [reflexivity|]. split; [reflexivity|]. split.
  - apply substring_prefix_length. rewrite hexdigest_length. lia.
  - apply substring_prefix_all, hexdigest_all_hex.
Qed.

Lemma generate_device_id_deterministic_witness :
  exists fingerprint,
    generate_device_id sample_request = Ok fingerprint
    /\ generate_device_id sample_request_again = Ok fingerprint
    /\ String.length fingerprint = 16%nat
    /\ string_all is_hex fingerprint = true.
Proof.
  apply (generate_device_id_deterministic sample_request sample_request_again
           (JDict [("serial", JStr "ACCC8E000001"); ("model", JStr "Q1656")]));
    reflexivity.
Defined.

(** *** Key order in [device_info] *)

Lemma ascii_compare_lt a b : Ascii.compare a b = Lt <-> (N_of_ascii a < N_of_ascii b)%N.
Proof. unfold Ascii.compare. apply N.compare_lt_iff. Qed.

Lemma string_compare_lt_trans a b c :
  String.compare a b = Lt -> String.compare b c = Lt -> String.compare a c = Lt.
Proof.
  revert b c. induction a as [|x a IH]; intros [|y b] [|z c]; simpl; try congruence.
  destruct (Ascii.compare x y) eqn:Hxy; try discriminate.
  - apply Ascii.compare_eq_iff in Hxy as ->.
    destruct (Ascii.compare y z); try congruence. apply IH.
  - intros _. destruct (Ascii.compare y z) eqn:Hyz; try discriminate.
    + apply Ascii.compare_eq_iff in Hyz as <-. by rewrite Hxy.
    + intros _.
      pose proof (proj1 (ascii_compare_lt _ _) Hxy) as Hlt1.
      pose proof (proj1 (ascii_compare_lt _ _) Hyz) as Hlt2.
      assert (Hxz : Ascii.compare x z = Lt) by (apply ascii_compare_lt; lia).
      by rewrite Hxz.
Qed.

Lemma string_ltb_lt a b : String.ltb a b = true <-> String.compare a b = Lt.
Proof. unfold String.ltb. destruct (String.compare a b); intuition congruence. Qed.

Lemma string_ltb_trans a b c :
  String.ltb a b = true -> String.ltb b c = true -> String.ltb a c = true.
Proof. rewrite !string_ltb_lt. apply string_compare_lt_trans. Qed.

Lemma string_ltb_irrefl a : String.ltb a a = false.
Proof.
  unfold String.ltb. pose proof (String.compare_antisym a a) as H.
  destruct (String.compare a a); simpl in H; congruence.
Qed.

Lemma string_ltb_asym a b : String.ltb a b = true -> String.ltb b a = false.
Proof.
  unfold String.ltb. rewrite (String.compare_antisym a b).
  by destruct (String.compare b a).
Qed.

Lemma string_ltb_total a b :
  String.ltb a b = false -> String.ltb b a = false -> a = b.
Proof.
  unfold String.ltb. rewrite (String.compare_antisym a b).
  destruct (String.compare b a) eqn:Hc; simpl; try discriminate.
  intros _ _. symmetry. by apply String.compare_eq_iff.
Qed.

Section SortByKey.

Context {A : Type}.
Implicit Types (x y : string * A) (l : list (string * A)).

Lemma insert_by_key_elem x y l : In y (insert_by_key x l) <-> y = x \/ In y l.
Proof.
  induction l as [|z l IH]; simpl; [intuition|].
  destruct (String.ltb (fst x) (fst z)); simpl; [intuition|]. rewrite IH. intuition.
Qed.

Lemma key_le_trans x y z : key_le x y -> key_le y z -> key_le x z.
Proof.
  unfold key_le. intros Hxy Hyz.
  destruct (String.ltb (fst z) (fst x)) eqn:Hzx; [|reflexivity].
  destruct (String.ltb (fst x) (fst y)) eqn:Hlt.
  - by rewrite (string_ltb_trans _ _ _ Hzx Hlt) in Hyz.
  - rewrite (string_ltb_total _ _ Hlt Hxy) in Hzx. congruence.
Qed.

Lemma insert_by_key_sorted x l :
  StronglySorted key_le l -> StronglySorted key_le (insert_by_key x l).
Proof.
  induction 1 as [|z l Hl IH Hz]; simpl.
  - repeat constructor.
  - destruct (String.ltb (fst x) (fst z)) eqn:Hxz.
    + constructor; [by constructor|].
      assert (Hle : key_le x z) by (by apply string_ltb_asym).
      constructor; [exact Hle|].
      eapply Forall_impl; [exact Hz|]. intros w Hw. by apply key_le_trans with z.
    + constructor; [exact IH|]. apply Forall_forall. intros w Hw.
      apply list_elem_of_In, insert_by_key_elem in Hw as [->|Hw]; [exact Hxz|].
      rewrite Forall_forall in Hz. apply Hz. by apply list_elem_of_In.
Qed.

Lemma sort_by_key_sorted l : StronglySorted key_le (sort_by_key l).
Proof.
  induction l as [|x l IH]; simpl; [constructor | by apply insert_by_key_sorted].
Qed.

(** Inserting two entries of different keys in a sorted list gives the same
    list in either order. *)
Lemma insert_by_key_comm x y l :
  fst x <> fst y -> StronglySorted key_le l ->
  insert_by_key x (insert_by_key y l) = insert_by_key y (insert_by_key x l).
Proof.
  intros Hne. induction 1 as [|z l Hl IH Hz]; simpl.
  - destruct (String.ltb (fst x) (fst y)) eqn:Hxy,
             (String.ltb (fst y) (fst x)) eqn:Hyx; try reflexivity.
    + by rewrite (string_ltb_asym _ _ Hxy) in Hyx.
    + by destruct Hne; apply string_ltb_total.
  - destruct (String.ltb (fst y) (fst z)) eqn:Hyz,
             (String.ltb (fst x) (fst z)) eqn:Hxz; simpl;
      rewrite ?Hyz, ?Hxz.
    + destruct (String.ltb (fst x) (fst y)) eqn:Hxy,
               (String.ltb (fst y) (fst x)) eqn:Hyx; try reflexivity.
      * by rewrite (string_ltb_asym _ _ Hxy) in Hyx.
      * by destruct Hne; apply string_ltb_total.
    + destruct (String.ltb (fst x) (fst y)) eqn:Hxy; [|reflexivity].
      by rewrite (string_ltb_trans _ _ _ Hxy Hyz) in Hxz.
    + destruct (String.ltb (fst y) (fst x)) eqn:Hyx; [|reflexivity].
      by rewrite (string_ltb_trans _ _ _ Hyx Hxz) in Hyz.
    + by rewrite IH.
Qed.

(** The sorted entries do not depend on the order in which a dict with
    distinct keys lists them. *)
Lemma sort_by_key_perm l l' :
  Permutation l l' -> NoDup (map fst l) -> sort_by_key l = sort_by_key l'.
Proof.
  induction 1 as [|x l l' Hp IH|x y l|l l' l'' Hp IH Hp' IH']; intros Hnd; simpl.
  - reflexivity.
  - apply NoDup_cons_1_2 in Hnd. by rewrite IH.
  - apply insert_by_key_comm; [|apply sort_by_key_sorted].
    apply NoDup_cons_1_1 in Hnd. intros Heq. apply Hnd. rewrite Heq. by left.
  - rewrite IH by done. apply IH'.
    assert (Hmap : map fst l ≡ₚ map fst l') by (by apply Permutation_map).
    by rewrite <- Hmap.
Qed.

End SortByKey.

(** With [sort_keys], the same JSON value is written the same way. *)
Lemma same_json_dumps a b : same_json a b -> json_dumps true a = json_dumps true b.
Proof.
  revert a b. fix IH 3.
  intros a b [| | | | l1 l2 Hl | kv1 kv kv2 Hnd Hperm Hkv]; try reflexivity.
  - simpl. do 2 f_equal.
    assert (Hmap : map (json_dumps true) l1 = map (json_dumps true) l2);
      [|by rewrite Hmap].
    revert l1 l2 Hl. fix IHl 3.
    intros l1 l2 [|x y l1' l2' Hxy Hl']; simpl; [reflexivity|].
    by rewrite (IH x y Hxy), (IHl l1' l2' Hl').
  - simpl. do 3 f_equal.
    set (g := fun e : string * json => (fst e, json_dumps true (snd e))).
    assert (Hitems : map g kv = map g kv2).
    { clear Hperm. revert kv kv2 Hkv. fix IHl 3.
      intros kv kv2 [|[k v] [k' v'] l l' [Hk Hv] Hl]; simpl; [reflexivity|].
      simpl in Hk. subst k'. unfold g at 1 3. simpl.
      by rewrite (IH v v' Hv), (IHl l l' Hl). }
    rewrite <- Hitems. f_equal. apply sort_by_key_perm.
    + by apply Permutation_map.
    + rewrite map_map. simpl. exact Hnd.
Qed.

(** X22: the fingerprint does not depend on the order of the entries of the
    objects in [device_info]. *)
Lemma fingerprint_ignores_key_order r1 r2 info1 info2 :
  source_ip r1 = source_ip r2 ->
  user_agent r1 = user_agent r2 ->
  device_info r1 = Some info1 ->
  device_info r2 = Some info2 ->
  same_json info1 info2 ->
  generate_device_id r1 = generate_device_id r2.
Proof.
  intros Hip Hua H1 H2 Hsame.
  rewrite (generate_device_id_signals _ _ H1), (generate_device_id_signals _ _ H2).
  by rewrite Hip, Hua, (same_json_dumps _ _ Hsame).
Qed.

Example reordered_device_info :
  generate_device_id sample_request_reordered = Ok sample_fingerprint.
Proof. vm_compute. reflexivity. Qed.

(** * Further properties of the vendor *)

(** ** The quota check over time *)

(** X1: the check never raises, never touches the key pool or the record of
    another device, and leaves the record of its own device as it was unless
    the device had none, in which case it may write the zero record and then
    answers "First time user". *)
Theorem check_rate_limits_frame (L : RateLimits) (E : Env) (now : Time)
    (device_id : string) (st : Store) :
  exists verdict st',
    check_rate_limits L E now device_id st = (Ok verdict, st')
    /\ shared_keys st' = shared_keys st
    /\ (forall id', id' <> device_id -> usage st' !! id' = usage st !! id')
    /\ (st' = st
        \/ (usage st !! device_id = None
            /\ usage st' !! device_id = Some (zero_record now)
            /\ verdict = (true, "First time user"))).
Proof.
  destruct (usage_get_fault E) as [e|] eqn:Hf.
  { rewrite (check_fault _ _ _ _ _ _ Hf). eauto 10. }
  destruct (usage st !! device_id) as [r|] eqn:Hr.
  { rewrite (check_existing _ _ _ _ _ _ Hf Hr). eauto 10. }
  rewrite (check_missing _ _ _ _ _ Hf Hr).
  destruct (usage_set_fault E); [eauto 10|].
  do 2 eexists. split; [reflexivity|]. split; [reflexivity|]. split.
  - intros id' Hne. simpl. by rewrite lookup_insert_ne.
  - right. simpl. by rewrite lookup_insert_eq.
Qed.

(** The verdict on the zero record: no stamp, no request. *)
Lemma quota_verdict_zero_record L t :
  quota_verdict L (zero_record t) = (true, "Within limits")
  <-> 0 < requests_per_minute L /\ 0 < requests_per_hour L
      /\ 0 < requests_per_day L /\ 0 < requests_per_device L.
Proof.
  unfold quota_verdict. simpl.
  destruct (Z.geb_spec 0 (requests_per_device L));
  destruct (Z.geb_spec 0 (requests_per_minute L));
  destruct (Z.geb_spec 0 (requests_per_hour L));
  destruct (Z.geb_spec 0 (requests_per_day L));
  split; intros Hx; try discriminate; try reflexivity; lia.
Qed.

(** X2: a device without a record is allowed on its first check whatever
    the limits are, even limits of zero, provided the store can be read and
    written; the check leaves the zero record stamped with the time of the
    check, and a later check with no usage update in between is allowed
    exactly when the four limits are positive. *)
Theorem first_check_is_allowed (L : RateLimits) (E : Env) (now : Time)
    (device_id : string) (st : Store) :
  usage_get_fault E = None ->
  usage_set_fault E = None ->
  usage st !! device_id = None ->
  let st1 := set_usage st (<[device_id := zero_record now]> (usage st)) in
  check_rate_limits L E now device_id st = (Ok (true, "First time user"), st1)
  /\ (forall E' now',
        usage_get_fault E' = None ->
        fst (check_rate_limits L E' now' device_id st1) = Ok (true, "Within limits")
        <-> 0 < requests_per_minute L /\ 0 < requests_per_hour L
            /\ 0 < requests_per_day L /\ 0 < requests_per_device L).
Proof.
  intros Hget Hset Hnone st1. split.
  - rewrite (check_missing _ _ _ _ _ Hget Hnone). by rewrite Hset.
  - intros E' now' Hget'.
    rewrite (check_existing L E' now' device_id st1 (zero_record now) Hget').
    + simpl. rewrite <- (quota_verdict_zero_record L now).
      split; [intros [= Hv] | intros Hv]; by rewrite Hv.
    + subst st1. simpl. apply lookup_insert_eq.
Qed.

Lemma first_check_is_allowed_witness :
  check_rate_limits (mkLimits 0 0 0 0) calm now0 "f1" empty_store
  = (Ok (true, "First time user"),
     set_usage empty_store (<["f1" := zero_record now0]> (usage empty_store))).
Proof.
  exact (proj1 (first_check_is_allowed (mkLimits 0 0 0 0) calm now0 "f1" empty_store
                  eq_refl eq_refl eq_refl)).
Defined.

(** A record holds a stamp exactly when its windows are not all empty. *)
Lemma holds_stamp_stamps r : holds_stamp r = true <-> stamps r <> [].
Proof.
  unfold holds_stamp, stamps.
  destruct (default [] (requests_this_minute r)), (default [] (requests_this_hour r)),
           (default [] (requests_this_day r)); simpl; split; intros; congruence.
Qed.

Lemma quota_verdict_stamped L r ts :
  In ts (stamps r) ->
  quota_verdict L r
  = if default 0 (total_requests r) >=? requests_per_device L
    then (false, "Demo limit reached. Please upgrade to continue.")
    else (false, "Service error").
Proof.
  intros Hts. unfold quota_verdict.
  assert (Hs : holds_stamp r = true).
  { apply holds_stamp_stamps. intros Hnil. rewrite Hnil in Hts. destruct Hts. }
  by rewrite Hs.
Qed.

(** X3: a device that was recorded once is locked out below its lifetime
    cap: when its record holds a time stamp in any window and a lifetime
    count below the cap, the check, on a store that can be read, answers
    "Service error" at every clock reading and for every limit, since the
    stored stamp, which carries the UTC zone, cannot be compared with the
    naive clock reading. *)
Theorem stamped_record_is_denied (L : RateLimits) (E : Env) (now : Time)
    (device_id : string) (st : Store) (r : UsageDoc) (ts : Time) :
  usage_get_fault E = None ->
  usage st !! device_id = Some r ->
  default 0 (total_requests r) < requests_per_device L ->
  In ts (stamps r) ->
  check_rate_limits L E now device_id st = (Ok (false, "Service error"), st).
Proof.
  intros Hf Hr Hcap Hts.
  rewrite (check_existing _ _ _ _ _ _ Hf Hr), (quota_verdict_stamped L r ts Hts).
  destruct (Z.geb_spec (default 0 (total_requests r)) (requests_per_device L));
    [lia | reflexivity].
Qed.

Lemma stamped_record_is_denied_witness :
  check_rate_limits RATE_LIMITS calm (now0 + seconds 864000) "f1" sample_store
  = (Ok (false, "Service error"), sample_store).
Proof.
  apply (stamped_record_is_denied RATE_LIMITS calm (now0 + seconds 864000) "f1"
           sample_store sample_record (now0 - seconds 61));
    [reflexivity | reflexivity | vm_compute; reflexivity | by left].
Defined.

(** ** What the operations do to the store *)

Lemma check_store_cases L E now device_id st :
  snd (check_rate_limits L E now device_id st) = st
  \/ (usage st !! device_id = None
      /\ snd (check_rate_limits L E now device_id st)
         = set_usage st (<[device_id := zero_record now]> (usage st))).
Proof.
  destruct (usage st !! device_id) as [r|] eqn:Hr.
  - left. by apply check_keeps_existing with r.
  - destruct (usage_get_fault E) as [e|] eqn:Hf.
    + left. by rewrite (check_fault _ _ _ _ _ _ Hf).
    + rewrite (check_missing _ _ _ _ _ Hf Hr).
      destruct (usage_set_fault E); [by left | by right].
Qed.

Lemma track_store_cases E now device_id success tokens st :
  track_usage E now device_id success tokens st = (Ok tt, st)
  \/ (exists r,
        usage st !! device_id = Some r /\ usage_update_fault E = None
        /\ track_usage E now device_id success tokens st
           = (Ok tt, set_usage st (<[device_id := usage_transforms now success tokens r]>
                                     (usage st)))).
Proof.
  destruct (usage_update_fault E) as [e|] eqn:Hf.
  { left. by apply track_usage_fault with e. }
  destruct (usage st !! device_id) as [r|] eqn:Hr.
  - right. exists r. split; [done|]. split; [done|]. by apply track_usage_accepted.
  - left. by apply track_usage_missing.
Qed.

(** X5: the usage update never raises and never creates a record: when the
    device has no record, or the store refuses the update, the store is left
    as it was and the request goes unrecorded; in every case the key pool
    and the records of other devices are untouched. *)
Theorem track_usage_frame (E : Env) (now : Time) (device_id : string)
    (success : bool) (tokens_used : Z) (st : Store) :
  exists st',
    track_usage E now device_id success tokens_used st = (Ok tt, st')
    /\ shared_keys st' = shared_keys st
    /\ (forall id', id' <> device_id -> usage st' !! id' = usage st !! id')
    /\ (usage st !! device_id = None -> st' = st)
    /\ (is_Some (usage_update_fault E) -> st' = st).
Proof.
  destruct (track_store_cases E now device_id success tokens_used st)
    as [Hrun | (r & Hr & Hf & Hrun)]; rewrite Hrun.
  - exists st. repeat split; done.
  - eexists. split; [reflexivity|]. split; [reflexivity|]. split; [|split].
    + intros id' Hne. simpl. by rewrite lookup_insert_ne.
    + congruence.
    + rewrite Hf. by intros [e He].
Qed.

Lemma total_never_decreases ops device_id st :
  total_of device_id st <= total_of device_id (run_ops ops st).
Proof.
  apply (keeps_run_ops (fun a b => total_of device_id a <= total_of device_id b)).
  - intros; lia.
  - intros; lia.
  - intros L0 E0 now1 id1 st1. rewrite check_total. lia.
  - intros E0 now1 id1 success1 tokens1 st1. apply track_total.
Qed.

(** A record, once written, stays, and keeps its creation time. *)
Lemma record_stays ops device_id st r :
  usage st !! device_id = Some r ->
  exists r', usage (run_ops ops st) !! device_id = Some r'
             /\ created_at r' = created_at r.
Proof.
  revert r.
  apply (keeps_run_ops (fun a b => forall r, usage a !! device_id = Some r ->
           exists r', usage b !! device_id = Some r' /\ created_at r' = created_at r)).
  - eauto.
  - intros a b c Hab Hbc r Hr. destruct (Hab r Hr) as (r' & Hr' & Hc').
    destruct (Hbc r' Hr') as (r'' & Hr'' & Hc''). exists r''. split; congruence.
  - intros L E now id1 st1 r Hr.
    destruct (check_store_cases L E now id1 st1) as [-> | [Hnone ->]]; [eauto|].
    simpl. destruct (decide (id1 = device_id)) as [->|Hne]; [congruence|].
    rewrite lookup_insert_ne by done. eauto.
  - intros E now id1 success tokens st1 r Hr.
    destruct (track_store_cases E now id1 success tokens st1)
      as [-> | (r1 & Hr1 & _ & ->)]; [eauto|].
    simpl. destruct (decide (id1 = device_id)) as [->|Hne].
    + rewrite lookup_insert_eq. eexists. split; [reflexivity|]. simpl. congruence.
    + rewrite lookup_insert_ne by done. eauto.
Qed.

(** X6: the lifetime denial is final: once the lifetime count of a device
    has reached the cap, every check whose read succeeds, at any later time
    and after any further operations of the vendor, denies with the upgrade
    message. *)
Theorem lifetime_denial_is_final (L : RateLimits) (E : Env) (now : Time)
    (device_id : string) (ops : list Op) (st : Store) (r : UsageDoc) :
  usage st !! device_id = Some r ->
  requests_per_device L <= default 0 (total_requests r) ->
  usage_get_fault E = None ->
  check_rate_limits L E now device_id (run_ops ops st)
  = (Ok (false, "Demo limit reached. Please upgrade to continue."), run_ops ops st).
Proof.
  intros Hr Hcap Hf.
  destruct (record_stays ops device_id st r Hr) as (r' & Hr' & _).
  pose proof (total_never_decreases ops device_id st) as Hmono.
  unfold total_of in Hmono. rewrite Hr, Hr' in Hmono. simpl in Hmono.
  rewrite (check_existing _ _ _ _ _ _ Hf Hr'). unfold quota_verdict.
  destruct (Z.geb_spec (default 0 (total_requests r')) (requests_per_device L));
    [reflexivity | lia].
Qed.

Lemma lifetime_denial_is_final_witness :
  fst (check_rate_limits RATE_LIMITS calm (now0 + seconds 864000) sample_fingerprint
         (run_ops [ProxyRequest RATE_LIMITS calm sample_request;
                   RecordUsage calm now0 sample_fingerprint true 1] capped_store))
  = Ok (false, "Demo limit reached. Please upgrade to continue.").
Proof.
  rewrite (lifetime_denial_is_final RATE_LIMITS calm (now0 + seconds 864000)
             sample_fingerprint _ capped_store capped_record);
    [reflexivity | reflexivity | vm_compute; discriminate | reflexivity].
Defined.

Lemma add_once_prefix now window : default [] window `prefix_of` add_once now window.
Proof.
  unfold add_once. destruct (bool_decide _); [done|]. by apply prefix_app_r.
Qed.

Lemma add_once_length now window :
  len (add_once now window) <= len (default [] window) + 1.
Proof.
  unfold add_once, len. destruct (bool_decide _); [lia|].
  rewrite length_app. simpl. lia.
Qed.

Lemma usage_transforms_windows now success tokens r :
  requests_this_minute (usage_transforms now success tokens r)
  = Some (add_once now (requests_this_minute r))
  /\ requests_this_hour (usage_transforms now success tokens r)
     = Some (add_once now (requests_this_hour r))
  /\ requests_this_day (usage_transforms now success tokens r)
     = Some (add_once now (requests_this_day r)).
Proof. repeat split; apply ArrayUnion_one. Qed.

Lemma windows_grow_step (f : UsageDoc -> option (list Time)) device_id :
  f (zero_record 0) = Some [] ->
  (forall now, f (zero_record now) = Some []) ->
  (forall now success tokens r,
      default [] (f r) `prefix_of` default [] (f (usage_transforms now success tokens r))) ->
  forall ops st,
    default [] (usage st !! device_id ≫= f)
    `prefix_of` default [] (usage (run_ops ops st) !! device_id ≫= f).
Proof.
  intros _ Hzero Hstep.
  apply (keeps_run_ops (fun a b => default [] (usage a !! device_id ≫= f)
                                   `prefix_of` default [] (usage b !! device_id ≫= f))).
  - done.
  - intros a b c Hab Hbc. by etrans.
  - intros L E now id1 st1.
    destruct (check_store_cases L E now id1 st1) as [-> | [Hnone ->]]; [done|].
    simpl. destruct (decide (id1 = device_id)) as [->|Hne].
    + rewrite Hnone, lookup_insert_eq. simpl. by rewrite Hzero.
    + by rewrite lookup_insert_ne.
  - intros E now id1 success tokens st1.
    destruct (track_store_cases E now id1 success tokens st1)
      as [-> | (r1 & Hr1 & _ & ->)]; [done|].
    simpl. destruct (decide (id1 = device_id)) as [->|Hne].
    + rewrite Hr1, lookup_insert_eq. simpl. apply Hstep.
    + by rewrite lookup_insert_ne.
Qed.

(** X7: the vendor never deletes a record, never changes its creation time
    and never prunes a stored window: after any sequence of operations each
    stored window of a device starts with what it held before (pruning
    happens on the copy read by the check only). *)
Theorem stored_records_only_grow (ops : list Op) (device_id : string) (st : Store) :
  stored_minute device_id st `prefix_of` stored_minute device_id (run_ops ops st)
  /\ stored_hour device_id st `prefix_of` stored_hour device_id (run_ops ops st)
  /\ stored_day device_id st `prefix_of` stored_day device_id (run_ops ops st)
  /\ (forall r, usage st !! device_id = Some r ->
      exists r', usage (run_ops ops st) !! device_id = Some r'
                 /\ created_at r' = created_at r).
Proof.
  unfold stored_minute, stored_hour, stored_day.
  split; [|split; [|split]].
  - apply windows_grow_step; try done. intros now success tokens r.
    rewrite (proj1 (usage_transforms_windows now success tokens r)).
    apply add_once_prefix.
  - apply windows_grow_step; try done. intros now success tokens r.
    rewrite (proj1 (proj2 (usage_transforms_windows now success tokens r))).
    apply add_once_prefix.
  - apply windows_grow_step; try done. intros now success tokens r.
    rewrite (proj2 (proj2 (usage_transforms_windows now success tokens r))).
    apply add_once_prefix.
  - intros r Hr. by apply record_stays.
Qed.

Lemma stamps_stay ops device_id st r ts :
  usage st !! device_id = Some r ->
  In ts (stamps r) ->
  exists r', usage (run_ops ops st) !! device_id = Some r' /\ In ts (stamps r').
Proof.
  intros Hr Hts.
  destruct (record_stays ops device_id st r Hr) as (r' & Hr' & _).
  exists r'. split; [exact Hr'|].
  assert (Hgrow : forall f : UsageDoc -> option (list Time),
            (forall now, f (zero_record now) = Some []) ->
            (forall now success tokens r0,
                default [] (f r0)
                `prefix_of` default [] (f (usage_transforms now success tokens r0))) ->
            forall t, In t (default [] (f r)) -> In t (default [] (f r'))).
  { intros f Hzero Hstep t Ht.
    pose proof (windows_grow_step f device_id (Hzero 0) Hzero Hstep ops st) as Hpre.
    rewrite Hr, Hr' in Hpre. simpl in Hpre. destruct Hpre as [more ->].
    apply in_or_app. by left. }
  unfold stamps in *. rewrite !in_app_iff in Hts |- *.
  destruct Hts as [Hts | [Hts | Hts]]; [left | right; left | right; right];
    (eapply Hgrow; [| | exact Hts]; [done|]); intros now success tokens r0.
  - rewrite (proj1 (usage_transforms_windows now success tokens r0)).
    apply add_once_prefix.
  - rewrite (proj1 (proj2 (usage_transforms_windows now success tokens r0))).
    apply add_once_prefix.
  - rewrite (proj2 (proj2 (usage_transforms_windows now success tokens r0))).
    apply add_once_prefix.
Qed.

(** X4: the lock-out is final: a device whose record holds a time stamp is
    never allowed again. After any further operations of the vendor, at any
    clock reading and whatever the backend does, the check denies it, with
    "Service error" below the lifetime cap or when the read fails, and with
    the upgrade message at the cap. *)
Theorem recorded_device_stays_denied (L : RateLimits) (E : Env) (now : Time)
    (device_id : string) (ops : list Op) (st : Store) (r : UsageDoc) (ts : Time) :
  usage st !! device_id = Some r ->
  In ts (stamps r) ->
  check_rate_limits L E now device_id (run_ops ops st)
  = (Ok (false,
         match usage_get_fault E with
         | Some _ => "Service error"
         | None =>
             if total_of device_id (run_ops ops st) >=? requests_per_device L
             then "Demo limit reached. Please upgrade to continue."
             else "Service error"
         end),
     run_ops ops st).
Proof.
  intros Hr Hts.
  destruct (stamps_stay ops device_id st r ts Hr Hts) as (r' & Hr' & Hts').
  unfold total_of. rewrite Hr'. simpl.
  destruct (usage_get_fault E) as [e|] eqn:Hf.
  - by rewrite (check_fault _ _ _ _ _ _ Hf).
  - rewrite (check_existing _ _ _ _ _ _ Hf Hr'), (quota_verdict_stamped L r' ts Hts').
    by destruct (_ >=? _).
Qed.

Lemma recorded_device_stays_denied_witness :
  fst (check_rate_limits RATE_LIMITS calm (now0 + seconds 864000) "f1"
         (run_ops ten_requests sample_store))
  = Ok (false, "Service error").
Proof.
  rewrite (recorded_device_stays_denied RATE_LIMITS calm (now0 + seconds 864000) "f1"
             ten_requests sample_store sample_record (now0 - seconds 61) eq_refl);
    [reflexivity | by left].
Defined.

Lemma usage_transforms_consistent now success tokens r :
  consistent r -> consistent (usage_transforms now success tokens r).
Proof.
  unfold consistent.
  destruct (usage_transforms_windows now success tokens r) as (-> & -> & ->).
  simpl.
  pose proof (add_once_length now (requests_this_minute r)).
  pose proof (add_once_length now (requests_this_hour r)).
  pose proof (add_once_length now (requests_this_day r)).
  destruct success; lia.
Qed.

(** X8: the counters of a record stay consistent: if in every record the
    successes lie between 0 and the lifetime count and no window holds more
    stamps than the lifetime count, the same holds after any sequence of
    operations; it holds in particular in every store reached from an empty
    one. *)
Theorem counters_stay_consistent (ops : list Op) (st : Store) :
  store_consistent st -> store_consistent (run_ops ops st).
Proof.
  apply (keeps_run_ops (fun a b => store_consistent a -> store_consistent b)).
  - done.
  - auto.
  - intros L E now id1 st1 Hst.
    destruct (check_store_cases L E now id1 st1) as [-> | [Hnone ->]]; [done|].
    intros id r. simpl. rewrite lookup_insert. destruct (decide (id1 = id)).
    + intros [= <-]. unfold consistent, len. simpl. lia.
    + apply Hst.
  - intros E now id1 success tokens st1 Hst.
    destruct (track_store_cases E now id1 success tokens st1)
      as [-> | (r1 & Hr1 & _ & ->)]; [done|].
    intros id r. simpl. rewrite lookup_insert. destruct (decide (id1 = id)).
    + intros [= <-]. apply usage_transforms_consistent. by apply Hst with id1.
    + apply Hst.
Qed.

Lemma counters_stay_consistent_witness :
  store_consistent (run_ops ten_requests empty_store).
Proof.
  apply (counters_stay_consistent ten_requests empty_store).
  intros device_id r Hr. simpl in Hr. rewrite lookup_empty in Hr. discriminate.
Defined.

Lemma lifetime_limit_reached_witness :
  fst (check_rate_limits cap_of_three calm (now0 + seconds 10) "f1"
         (run_ops three_updates fresh_store))
  = Ok (false, "Demo limit reached. Please upgrade to continue.").
Proof.
  apply lifetime_limit_reached.
  - by eexists.
  - vm_compute. discriminate.
  - repeat constructor.
  - vm_compute. discriminate.
  - reflexivity.
Defined.

(** ** The key selection, further *)

Lemma selects_least_used_key_witness :
  get_next_available_key calm (mkStore ∅ scenario_pool)
  = (Ok (Some "secret:ai-key-k3"), mkStore ∅ scenario_pool).
Proof.
  refine (proj1 (selects_least_used_key calm (mkStore ∅ scenario_pool)
                   (mkKey "k3" (Some true) (Some 3) (Some 1000))
                   [mkKey "k7" (Some true) (Some 7) (Some 1000)] _ _ _));
    reflexivity.
Defined.

Lemma fallback_finds_same_key_witness :
  get_next_available_key calm (mkStore ∅ uneven_pool) = (Ok None, mkStore ∅ uneven_pool).
Proof.
  refine (fallback_finds_same_key calm (mkStore ∅ uneven_pool)
            (mkKey "k1" (Some true) (Some 1000) (Some 1000))
            [mkKey "k2" (Some true) (Some 1500) (Some 2000)] _ _ _ _);
    first [reflexivity | vm_compute; discriminate].
Defined.

Lemma first_of_order_active l k rest :
  firstn 1 (order_by_used_today (List.filter is_active l)) = k :: rest ->
  In k l /\ is_active k = true /\ is_Some (used_today k).
Proof.
  intros Hfirst.
  assert (Hin : In k (order_by_used_today (List.filter is_active l))).
  { destruct (order_by_used_today (List.filter is_active l)) as [|k0 l0];
      [discriminate|]. simpl in Hfirst. injection Hfirst as -> _. by left. }
  apply order_by_used_today_elem in Hin as [Hin Hused].
  apply filter_In in Hin as [Hin Hactive]. done.
Qed.

Lemma first_under_1000_active l k rest :
  firstn 1 (List.filter (fun k => default 0 (used_today k) <? 1000)
              (order_by_used_today (List.filter is_active l))) = k :: rest ->
  In k l /\ is_active k = true /\ is_Some (used_today k).
Proof.
  intros Hfirst.
  assert (Hin : In k (List.filter (fun k => default 0 (used_today k) <? 1000)
                        (order_by_used_today (List.filter is_active l)))).
  { destruct (List.filter _ (order_by_used_today _)) as [|k0 l0]; [discriminate|].
    simpl in Hfirst. injection Hfirst as -> _. by left. }
  apply filter_In in Hin as [Hin _].
  apply order_by_used_today_elem in Hin as [Hin Hused].
  apply filter_In in Hin as [Hin Hactive]. done.
Qed.

Lemma selected_key_is_active (E : Env) (st st' : Store) (api_key : string) :
  get_next_available_key E st = (Ok (Some api_key), st') ->
  st' = st
  /\ exists k,
       In k (shared_keys st) /\ is_active k = true /\ is_Some (used_today k)
       /\ access_secret E ("ai-key-" ++ key_id k) = Ok api_key.
Proof.
  assert (Hsecret : forall k, secret_of E k = Some api_key ->
            access_secret E ("ai-key-" ++ key_id k) = Ok api_key).
  { intros k. unfold secret_of. destruct (access_secret E _); congruence. }
  unfold get_next_available_key, bind.
  destruct (keys_query_fault E) as [e|] eqn:Hf.
  { unfold query_least_used, bind, faulty. rewrite Hf. discriminate. }
  rewrite (query_least_used_ok _ _ Hf).
  destruct (firstn 1 _) as [|k rest] eqn:Hfirst; [discriminate|].
  apply first_of_order_active in Hfirst as (Hin & Hactive & Hused).
  destruct (_ >=? _).
  - destruct (keys_fallback_fault E) as [e|] eqn:Hf2.
    { unfold query_under_1000, bind, faulty. rewrite Hf2. discriminate. }
    rewrite (query_under_1000_ok _ _ Hf2).
    destruct (firstn 1 _) as [|k2 rest2] eqn:Hsecond; [discriminate|].
    apply first_under_1000_active in Hsecond as (Hin2 & Hactive2 & Hused2).
    rewrite decrypt_key_secret. intros [= Hk <-]. split; [done|].
    exists k2. auto.
  - rewrite decrypt_key_secret. intros [= Hk <-]. split; [done|].
    exists k. auto.
Qed.

(** X11: the selection reads the pool and nothing else, and hands out only
    the secret of a key of the pool that is active and has a count of
    today's uses: an inactive key, or one without the count, is never handed
    out. *)
Theorem key_handed_out_is_active (E : Env) (st st' : Store) (api_key : string) :
  get_next_available_key E st = (Ok (Some api_key), st') ->
  st' = st
  /\ exists k,
       In k (shared_keys st) /\ is_active k = true /\ is_Some (used_today k)
       /\ access_secret E ("ai-key-" ++ key_id k) = Ok api_key.
Proof. apply selected_key_is_active. Qed.

Lemma key_handed_out_is_active_witness :
  exists k,
    In k mixed_pool /\ is_active k = true /\ is_Some (used_today k)
    /\ access_secret calm ("ai-key-" ++ key_id k) = Ok "secret:ai-key-busy".
Proof.
  exact (proj2 (key_handed_out_is_active calm (mkStore ∅ mixed_pool) (mkStore ∅ mixed_pool)
                  "secret:ai-key-busy" eq_refl)).
Defined.

(** ** The proxy handler, further *)

(** The run of the handler on a validated request, step by step. *)
Lemma ai_proxy_validated L E request st request_data device_id :
  validated request request_data device_id ->
  ai_proxy L E request st =
  match check_rate_limits L E (utcnow_check E) device_id st with
  | (Ok (false, message), st1) => (Ok (denied_reply message), st1)
  | (Ok (true, _), st1) =>
      match get_next_available_key E st1 with
      | (Ok (Some (String c rest)), st2) =>
          let result := proxy_to_gemini E request_data (String c rest) in
          (Ok (upstream_reply result), snd (track_result E device_id result st2))
      | (Ok _, st2) => (Ok unavailable_reply, st2)
      | (Raise _, st2) => (Ok internal_error_reply, st2)
      end
  | (Raise _, st1) => (Ok internal_error_reply, st1)
  end.
Proof.
  intros (Hmethod & Hjson & Htruthy & Hid). unfold ai_proxy.
  rewrite Hmethod. simpl. unfold try_except, bind, lift.
  rewrite Hjson, Htruthy, Hid. simpl.
  destruct (check_rate_limits L E (utcnow_check E) device_id st)
    as [[[[] message]|e] st1]; simpl; try reflexivity.
  destruct (get_next_available_key E st1) as [[[[|c rest]|]|e] st2]; simpl;
    try reflexivity.
  destruct (track_result_never_raises E device_id
              (proxy_to_gemini E request_data (String c rest)) st2) as [st3 ->].
  simpl. by destruct (proxy_to_gemini E request_data (String c rest)).
Qed.

(** A request that fails the validation is answered at once. *)
Lemma ai_proxy_not_validated L E request st :
  (forall request_data device_id, ~ validated request request_data device_id) ->
  snd (ai_proxy L E request st) = st
  /\ exists resp, fst (ai_proxy L E request st) = Ok resp
       /\ In (status resp) [204; 405; 400; 500]
       /\ multi_get (resp_headers resp) "Access-Control-Allow-Origin" = Some "*".
Proof.
  intros Hnot. unfold ai_proxy.
  destruct (String.eqb (method request) "OPTIONS") eqn:Hopt.
  { simpl. split; [done|]. eexists. split; [reflexivity|]. simpl. auto. }
  unfold try_except, bind, lift.
  destruct (String.eqb (method request) "POST") eqn:Hpost; simpl.
  2:{ split; [done|]. eexists. split; [reflexivity|]. simpl. auto. }
  apply String.eqb_eq in Hpost.
  destruct (get_json request) as [request_data|e] eqn:Hjson; simpl.
  2:{ split; [done|]. eexists. split; [reflexivity|]. simpl. auto 6. }
  destruct (truthy request_data) eqn:Htruthy; simpl.
  2:{ split; [done|]. eexists. split; [reflexivity|]. simpl. auto 6. }
  destruct (generate_device_id request) as [device_id|e] eqn:Hid; simpl.
  2:{ split; [done|]. eexists. split; [reflexivity|]. simpl. auto 6. }
  destruct (Hnot request_data device_id). done.
Qed.

Lemma classic_validated request :
  (exists request_data device_id, validated request request_data device_id)
  \/ (forall request_data device_id, ~ validated request request_data device_id).
Proof.
  unfold validated.
  destruct (String.eqb_spec (method request) "POST") as [Hm|Hm];
    [|right; intros ? ? (? & _); done].
  destruct (get_json request) as [request_data|e];
    [|right; intros ? ? (_ & ? & _); done].
  destruct (truthy request_data) eqn:Htruthy;
    [|right; intros ? ? (_ & [= <-] & ? & _); congruence].
  destruct (generate_device_id request) as [device_id|e];
    [|right; intros ? ? (_ & _ & _ & ?); done].
  left. by exists request_data, device_id.
Qed.

Lemma upstream_reply_status result :
  In (status (upstream_reply result)) [200; 500]
  /\ multi_get (resp_headers (upstream_reply result)) "Access-Control-Allow-Origin"
     = Some "*".
Proof. destruct result; simpl; auto. Qed.

(** X12: the proxy handler never raises: every request, whatever the
    backend does, gets a reply whose status is one of 204, 405, 400, 429,
    503, 200 and 500 and which carries the header
    [Access-Control-Allow-Origin: *]; and a request answered 204, 405 or 400
    has not touched the store. *)
Theorem ai_proxy_always_replies (L : RateLimits) (E : Env) (request : Request)
    (st : Store) :
  exists resp st',
    ai_proxy L E request st = (Ok resp, st')
    /\ In (status resp) proxy_statuses
    /\ multi_get (resp_headers resp) "Access-Control-Allow-Origin" = Some "*"
    /\ (In (status resp) [204; 405; 400] -> st' = st).
Proof.
  destruct (classic_validated request) as [(request_data & device_id & Hv) | Hnot].
  - rewrite (ai_proxy_validated L E request st request_data device_id Hv).
    destruct (check_rate_limits L E (utcnow_check E) device_id st)
      as [[[[] message]|e] st1].
    + destruct (get_next_available_key E st1) as [[[[|c rest]|]|e] st2].
      * do 2 eexists. split; [reflexivity|]. split; [simpl; auto 10|].
        split; [reflexivity|]. intros Hearly. simpl in Hearly. intuition discriminate.
      * destruct (upstream_reply_status (proxy_to_gemini E request_data (String c rest)))
          as [Hstatus Hheader].
        do 2 eexists. split; [reflexivity|]. cbv zeta. split; [|split; [exact Hheader|]].
        -- unfold proxy_statuses. destruct Hstatus as [<-|[<-|[]]]; simpl; auto 10.
        -- intros Hearly. exfalso.
           destruct Hstatus as [Hs|[Hs|[]]]; rewrite <- Hs in Hearly;
             simpl in Hearly; intuition discriminate.
      * do 2 eexists. split; [reflexivity|]. split; [simpl; auto 10|].
        split; [reflexivity|]. intros Hearly. simpl in Hearly. intuition discriminate.
      * do 2 eexists. split; [reflexivity|]. split; [simpl; auto 10|].
        split; [reflexivity|]. intros Hearly. simpl in Hearly. intuition discriminate.
    + do 2 eexists. split; [reflexivity|]. split; [simpl; auto 10|].
        split; [reflexivity|]. intros Hearly. simpl in Hearly. intuition discriminate.
    + do 2 eexists. split; [reflexivity|]. split; [simpl; auto 10|].
        split; [reflexivity|]. intros Hearly. simpl in Hearly. intuition discriminate.
  - destruct (ai_proxy_not_validated L E request st Hnot)
      as (Hst & resp & Hresp & Hstatus & Hheader).
    destruct (ai_proxy L E request st) as [res st']. simpl in Hst, Hresp. subst res st'.
    exists resp, st. split; [reflexivity|].
    split; [|by split]. unfold proxy_statuses.
    destruct Hstatus as [<-|[<-|[<-|[<-|[]]]]]; simpl; auto 10.
Qed.

(** X13: a validated request that the quota check denies is answered 429
    with the reason of the check and the upgrade address, and the store is
    as before; a usage collection that cannot be read is reported the same
    way, as a 429 with the message "Service error". *)
Theorem quota_denial_reply (L : RateLimits) (E : Env) (request : Request)
    (st : Store) (request_data : json) (device_id : string) :
  validated request request_data device_id ->
  (forall message,
      fst (check_rate_limits L E (utcnow_check E) device_id st) = Ok (false, message) ->
      ai_proxy L E request st = (Ok (denied_reply message), st))
  /\ (is_Some (usage_get_fault E) ->
      ai_proxy L E request st = (Ok (denied_reply "Service error"), st)).
Proof.
  intros Hv. rewrite (ai_proxy_validated L E request st request_data device_id Hv).
  split.
  - intros message Hdenied.
    pose proof (check_denied_keeps_store L E (utcnow_check E) device_id st message Hdenied)
      as Hst.
    destruct (check_rate_limits L E (utcnow_check E) device_id st) as [v st1].
    simpl in *. by subst.
  - intros [e He]. by rewrite (check_fault _ _ _ _ _ _ He).
Qed.

Lemma quota_denial_reply_witness :
  ai_proxy RATE_LIMITS broken_read sample_request pool_store
  = (Ok (denied_reply "Service error"), pool_store).
Proof.
  refine (proj2 (quota_denial_reply RATE_LIMITS broken_read sample_request pool_store
                   (JDict [("model", JStr "gemini-1.5-flash");
                           ("contents", JList []);
                           ("device_info", JDict [("serial", JStr "ACCC8E000001");
                                                  ("model", JStr "Q1656")])])
                   sample_fingerprint _) _).
  - repeat split; vm_compute; reflexivity.
  - by eexists.
Defined.

Lemma check_allowed_has_record L E now device_id st message :
  fst (check_rate_limits L E now device_id st) = Ok (true, message) ->
  is_Some (usage (snd (check_rate_limits L E now device_id st)) !! device_id).
Proof.
  destruct (usage_get_fault E) as [e|] eqn:Hf.
  { by rewrite (check_fault _ _ _ _ _ _ Hf). }
  destruct (usage st !! device_id) as [r|] eqn:Hr.
  { rewrite (check_existing _ _ _ _ _ _ Hf Hr). simpl. rewrite Hr. eauto. }
  rewrite (check_missing _ _ _ _ _ Hf Hr).
  destruct (usage_set_fault E); [discriminate|]. simpl.
  rewrite lookup_insert_eq. eauto.
Qed.

(** X14: a validated request that passes the quota check and obtains a key
    is answered from the upstream result, 200 with the upstream answer or
    500 with its error, and is recorded in both cases: when the store
    accepts the update, the lifetime count of the device is one more than
    before the request, also for a device seen for the first time. *)
Theorem served_request_is_recorded (L : RateLimits) (E : Env) (request : Request)
    (st : Store) (request_data : json) (device_id : string) (message : string)
    (c : ascii) (rest : string) (n : Z) :
  validated request request_data device_id ->
  let checked := check_rate_limits L E (utcnow_check E) device_id st in
  let result := proxy_to_gemini E request_data (String c rest) in
  fst checked = Ok (true, message) ->
  fst (get_next_available_key E (snd checked)) = Ok (Some (String c rest)) ->
  proxy_tokens result = JInt n ->
  usage_update_fault E = None ->
  fst (ai_proxy L E request st) = Ok (upstream_reply result)
  /\ total_of device_id (snd (ai_proxy L E request st)) = total_of device_id st + 1.
Proof.
  intros Hv checked result Hallowed Hkey Htokens Hf.
  rewrite (ai_proxy_validated L E request st request_data device_id Hv).
  pose proof (check_allowed_has_record L E (utcnow_check E) device_id st message Hallowed)
    as [r Hr].
  pose proof (check_total L E (utcnow_check E) device_id device_id st) as Htotal.
  subst checked. destruct (check_rate_limits L E (utcnow_check E) device_id st)
    as [v st1]. simpl in *. subst v.
  pose proof (select_keeps_store E st1) as Hsel.
  destruct (get_next_available_key E st1) as [k st2]. simpl in *. subst k st2.
  split; [reflexivity|]. cbv zeta. fold result.
  unfold track_result. rewrite Htokens.
  rewrite (track_usage_accepted _ _ _ _ _ _ _ Hr Hf). simpl snd.
  rewrite total_of_insert. destruct (decide (device_id = device_id)); [|done].
  rewrite <- Htotal. unfold total_of. rewrite Hr. reflexivity.
Qed.

Lemma served_request_is_recorded_witness :
  fst (ai_proxy RATE_LIMITS upstream_timeout sample_request pool_store)
  = Ok (upstream_reply (ProxyErr "Request timeout"))
  /\ total_of sample_fingerprint
       (snd (ai_proxy RATE_LIMITS upstream_timeout sample_request pool_store))
     = total_of sample_fingerprint pool_store + 1.
Proof.
  refine (served_request_is_recorded RATE_LIMITS upstream_timeout sample_request
            pool_store
            (JDict [("model", JStr "gemini-1.5-flash");
                    ("contents", JList []);
                    ("device_info", JDict [("serial", JStr "ACCC8E000001");
                                           ("model", JStr "Q1656")])])
            sample_fingerprint "First time user" "s" "ecret:ai-key-k1" 0 _ _ _ _ _).
  - repeat split; vm_compute; reflexivity.
  - vm_compute. reflexivity.
  - vm_compute. reflexivity.
  - reflexivity.
  - reflexivity.
Defined.

(** X15: when no key of the pool that is active and counted has a secret
    that can be read and is not empty, a validated request that passes the
    quota check is answered 503 and is not recorded: the store is as the
    check left it. *)
Theorem no_key_means_unavailable (L : RateLimits) (E : Env) (request : Request)
    (st : Store) (request_data : json) (device_id : string) (message : string) :
  validated request request_data device_id ->
  fst (check_rate_limits L E (utcnow_check E) device_id st) = Ok (true, message) ->
  keys_query_fault E = None ->
  keys_fallback_fault E = None ->
  (forall k c rest,
      In k (shared_keys st) -> is_active k = true -> is_Some (used_today k) ->
      access_secret E ("ai-key-" ++ key_id k) <> Ok (String c rest)) ->
  ai_proxy L E request st
  = (Ok unavailable_reply, snd (check_rate_limits L E (utcnow_check E) device_id st)).
Proof.
  intros Hv Hallowed Hq Hq2 Hnone.
  rewrite (ai_proxy_validated L E request st request_data device_id Hv).
  pose proof (check_keeps_keys L E (utcnow_check E) device_id st) as Hkeys.
  destruct (check_rate_limits L E (utcnow_check E) device_id st) as [v st1].
  simpl in *. subst v.
  destruct (get_next_available_key E st1) as [[[[|c rest]|]|e] st2] eqn:Hsel.
  - by destruct (selected_key_is_active E st1 st2 "" Hsel) as [-> _].
  - destruct (selected_key_is_active E st1 st2 (String c rest) Hsel)
      as [-> (k & Hin & Hactive & Hused & Hsecret)].
    rewrite <- Hkeys in Hin. by destruct (Hnone k c rest Hin Hactive Hused).
  - pose proof (select_keeps_store E st1) as Hst. rewrite Hsel in Hst. simpl in Hst.
    by subst.
  - exfalso. revert Hsel. unfold get_next_available_key, bind.
    rewrite (query_least_used_ok _ _ Hq).
    destruct (firstn 1 _) as [|k l]; [discriminate|].
    destruct (_ >=? _); [|by rewrite decrypt_key_secret].
    rewrite (query_under_1000_ok _ _ Hq2).
    destruct (firstn 1 _) as [|k2 l2]; [discriminate|]. by rewrite decrypt_key_secret.
Qed.

Lemma no_key_means_unavailable_witness :
  ai_proxy RATE_LIMITS secrets_unreadable sample_request pool_store
  = (Ok unavailable_reply,
     snd (check_rate_limits RATE_LIMITS secrets_unreadable
            (utcnow_check secrets_unreadable) sample_fingerprint pool_store))
  /\ map key_id (List.filter eligible (shared_keys pool_store)) = ["k1"].
Proof.
  split; [|reflexivity].
  refine (no_key_means_unavailable RATE_LIMITS secrets_unreadable sample_request
            pool_store
            (JDict [("model", JStr "gemini-1.5-flash");
                    ("contents", JList []);
                    ("device_info", JDict [("serial", JStr "ACCC8E000001");
                                           ("model", JStr "Q1656")])])
            sample_fingerprint "First time user" _ _ _ _ _).
  - repeat split; vm_compute; reflexivity.
  - vm_compute. reflexivity.
  - reflexivity.
  - reflexivity.
  - intros k c rest _ _ _. discriminate.
Defined.

(** ** The status handler, further *)

Lemma get_device_status_run iso L E now request st :
  String.eqb (method request) "OPTIONS" = false ->
  get_device_status iso L E now request st =
  match status_device_id request, usage_get_fault E with
  | Ok device_id, None =>
      (Ok (reply (status_fields iso L now device_id (usage st !! device_id)) 200), st)
  | _, _ => (Ok (reply [("error", JStr "Failed to get status")] 500), st)
  end.
Proof.
  intros Hmethod. unfold get_device_status. rewrite Hmethod.
  unfold try_except, bind, status_device_id, usage_ref_get, bind, faulty, lift.
  destruct (multi_get (args request) "device_id") as [[|c rest]|];
    try destruct (generate_device_id request); simpl;
    destruct (usage_get_fault E); reflexivity.
Qed.

(** X16: the status handler never raises and never writes: every request
    gets a reply with status 204, 200 or 500 and leaves the store as it was;
    the status is 200 exactly when the method is not OPTIONS, the device id
    resolves (the query parameter, or the fingerprint of a JSON object body)
    and the usage collection can be read. *)
Theorem get_device_status_is_read_only (isoformat : Time -> string) (L : RateLimits)
    (E : Env) (now : Time) (request : Request) (st : Store) :
  exists resp,
    get_device_status isoformat L E now request st = (Ok resp, st)
    /\ In (status resp) [204; 200; 500]
    /\ (status resp = 200 <->
        String.eqb (method request) "OPTIONS" = false
        /\ usage_get_fault E = None
        /\ exists device_id, status_device_id request = Ok device_id).
Proof.
  destruct (String.eqb (method request) "OPTIONS") eqn:Hmethod.
  { unfold get_device_status. rewrite Hmethod. eexists. split; [reflexivity|].
    simpl. split; [auto|]. split; [discriminate | intros [? _]; discriminate]. }
  rewrite (get_device_status_run _ _ _ _ _ _ Hmethod).
  destruct (status_device_id request) as [device_id|e];
    destruct (usage_get_fault E) as [e'|]; eexists; (split; [reflexivity|]);
    simpl; (split; [auto|]); split; try discriminate; eauto;
    intros (_ & Hf & id & Hid); discriminate.
Qed.

(** X17: the status handler and the quota check agree on the lifetime limit:
    for a device with a record, the reported status is "limit_reached", and
    the reported number of remaining requests is 0, exactly when a check of
    that device denies with the upgrade message. *)
Theorem status_agrees_with_check (isoformat : Time -> string) (L : RateLimits)
    (E E' : Env) (now now' : Time) (request : Request) (st : Store)
    (device_id : string) (r : UsageDoc) :
  String.eqb (method request) "OPTIONS" = false ->
  status_device_id request = Ok device_id ->
  usage_get_fault E = None ->
  usage_get_fault E' = None ->
  usage st !! device_id = Some r ->
  exists fields,
    get_device_status isoformat L E now request st = (Ok (reply fields 200), st)
    /\ (dict_lookup fields "status" = Some (JStr "limit_reached") <->
        fst (check_rate_limits L E' now' device_id st)
        = Ok (false, "Demo limit reached. Please upgrade to continue."))
    /\ (dict_lookup fields "requests_remaining" = Some (JInt 0) <->
        fst (check_rate_limits L E' now' device_id st)
        = Ok (false, "Demo limit reached. Please upgrade to continue.")).
Proof.
  intros Hmethod Hid Hf Hf' Hr.
  rewrite (get_device_status_run _ _ _ _ _ _ Hmethod), Hid, Hf, Hr.
  eexists. split; [reflexivity|].
  rewrite (check_existing _ _ _ _ _ _ Hf' Hr). simpl. unfold quota_verdict.
  destruct (Z.ltb_spec (default 0 (total_requests r)) (requests_per_device L));
    destruct (Z.geb_spec (default 0 (total_requests r)) (requests_per_device L));
    try lia.
  - split; (split; [intros [= Hx]; try lia|]).
    + repeat (match goal with |- context [if ?c then _ else _] => destruct c end;
              try discriminate).
    + repeat (match goal with |- context [if ?c then _ else _] => destruct c end;
              try discriminate).
  - split; (split; [reflexivity|]); intros _; [reflexivity|]. do 2 f_equal. lia.
Qed.

Lemma status_agrees_with_check_witness :
  exists fields,
    get_device_status (fun t => pretty t) RATE_LIMITS calm now0 status_request
      capped_status_store = (Ok (reply fields 200), capped_status_store)
    /\ (dict_lookup fields "status" = Some (JStr "limit_reached") <->
        fst (check_rate_limits RATE_LIMITS calm now0 "cam-1" capped_status_store)
        = Ok (false, "Demo limit reached. Please upgrade to continue."))
    /\ (dict_lookup fields "requests_remaining" = Some (JInt 0) <->
        fst (check_rate_limits RATE_LIMITS calm now0 "cam-1" capped_status_store)
        = Ok (false, "Demo limit reached. Please upgrade to continue.")).
Proof.
  apply (status_agrees_with_check (fun t => pretty t) RATE_LIMITS calm calm now0 now0
           status_request capped_status_store "cam-1" capped_record); reflexivity.
Defined.

(** ** The device authenticator, further *)

(** X18: a token is issued only for a device id: either version answers 200
    only when the SDK is initialised, the method is POST, the body is a JSON
    object with a truthy [device_id] and signing returned a token for that
    [device_id]; the body of the reply is then that token (which the older
    version accepts as [bytes] only). *)
Theorem token_only_for_device_id (A : AuthEnv) (request : Request) :
  (status (DeviceAuthUpdate.device_authenticator A request) = 200 ->
   apps_initialized A = true /\ method request = "POST"
   /\ exists d tok,
        body_device_id request = Some d /\ truthy d = true
        /\ create_custom_token A d = Ok tok
        /\ body (DeviceAuthUpdate.device_authenticator A request)
           = token_body (token_text tok))
  /\ (status (DeviceAuth.device_authenticator A request) = 200 ->
      apps_initialized A = true /\ method request = "POST"
      /\ exists d t,
           body_device_id request = Some d /\ truthy d = true
           /\ create_custom_token A d = Ok (TokenBytes t)
           /\ body (DeviceAuth.device_authenticator A request) = token_body t).
Proof.
  unfold DeviceAuthUpdate.device_authenticator, DeviceAuth.device_authenticator,
    body_device_id.
  split.
  - destruct (String.eqb (method request) "OPTIONS"); [discriminate|].
    destruct (apps_initialized A); [|discriminate]. simpl.
    destruct (String.eqb_spec (method request) "POST") as [Hpost|]; [|discriminate].
    simpl. destruct (truthy (get_json_silent request)); [|discriminate]. simpl.
    destruct (get_json_silent request) as [| | | | |kv]; try discriminate. simpl.
    destruct (truthy (dict_get kv "device_id" JNull)) eqn:Hd; [|discriminate]. simpl.
    destruct (create_custom_token A (dict_get kv "device_id" JNull)) as [[t|t]|e] eqn:Hs;
      try discriminate; intros _; repeat split; try done;
      eexists _, _; repeat split; eauto.
  - destruct (apps_initialized A); [|discriminate]. simpl.
    destruct (String.eqb_spec (method request) "POST") as [Hpost|]; [|discriminate].
    simpl. destruct (truthy (get_json_silent request)); [|discriminate]. simpl.
    destruct (get_json_silent request) as [| | | | |kv]; try discriminate. simpl.
    destruct (truthy (dict_get kv "device_id" JNull)) eqn:Hd; [|discriminate]. simpl.
    destruct (create_custom_token A (dict_get kv "device_id" JNull)) as [[t|t]|e] eqn:Hs;
      try discriminate; intros _; repeat split; try done;
      eexists _, _; repeat split; eauto.
Qed.

(** X19: the two versions of the authenticator answer alike: for every
    request but OPTIONS, and a signer that returns [bytes], they give the
    same status, and the same token when the status is 200. *)
Theorem device_authenticator_versions_agree (A : AuthEnv) (request : Request) :
  String.eqb (method request) "OPTIONS" = false ->
  (forall d s, create_custom_token A d <> Ok (TokenStr s)) ->
  status (DeviceAuth.device_authenticator A request)
  = status (DeviceAuthUpdate.device_authenticator A request)
  /\ (status (DeviceAuthUpdate.device_authenticator A request) = 200 ->
      body (DeviceAuth.device_authenticator A request)
      = body (DeviceAuthUpdate.device_authenticator A request)).
Proof.
  intros Hmethod Hbytes.
  unfold DeviceAuthUpdate.device_authenticator, DeviceAuth.device_authenticator.
  rewrite Hmethod.
  destruct (apps_initialized A); simpl; [|split; [done | discriminate]].
  destruct (String.eqb (method request) "POST"); simpl; [|split; [done | discriminate]].
  destruct (truthy (get_json_silent request)); simpl; [|split; [done | discriminate]].
  destruct (json_get (get_json_silent request) "device_id") as [d|e]; simpl;
    [|split; [done | discriminate]].
  destruct (truthy d); simpl; [|split; [done | discriminate]].
  destruct (create_custom_token A d) as [[t|t]|e] eqn:Hs; simpl.
  - done.
  - by destruct (Hbytes d t).
  - split; [done | discriminate].
Qed.

Lemma device_authenticator_versions_agree_witness :
  status (DeviceAuth.device_authenticator signer
            (auth_request "POST" (JDict [("device_id", JInt 7)])))
  = status (DeviceAuthUpdate.device_authenticator signer
              (auth_request "POST" (JDict [("device_id", JInt 7)]))).
Proof.
  refine (proj1 (device_authenticator_versions_agree signer
                   (auth_request "POST" (JDict [("device_id", JInt 7)])) eq_refl _)).
  intros d s. discriminate.
Defined.

(** ** The caller of the authenticator *)

(** X20: the step of the validation script that fetches the custom token,
    run against the authenticator with an initialised SDK: for a device id
    that is not empty the step passes with exactly the token that was signed
    for that id, and fails when signing raises; for an empty device id it
    fails (the endpoint answers 400). *)
Theorem custom_token_step (parse : string -> Result json) (A : AuthEnv)
    (DEVICE_ID : string) :
  apps_initialized A = true ->
  let step := test_step (get_firebase_custom_token (initiate_endpoint parse A) DEVICE_ID) in
  (DEVICE_ID = "" -> step = (None, false))
  /\ (DEVICE_ID <> "" ->
      match create_custom_token A (JStr DEVICE_ID) with
      | Ok tok => step = (Some (JStr (token_text tok)), true)
      | Raise _ => step = (None, false)
      end).
Proof.
  intros Hinit step. subst step.
  unfold get_firebase_custom_token, initiate_endpoint, serve,
    DeviceAuthUpdate.device_authenticator.
  simpl. rewrite Hinit. simpl. split.
  - intros ->. reflexivity.
  - intros Hne. destruct DEVICE_ID as [|c rest]; [done|]. simpl.
    change (dict_get [("device_id", JStr (String c rest))] "device_id" JNull)
      with (JStr (String c rest)).
    by destruct (create_custom_token A (JStr (String c rest))) as [[t|t]|e].
Qed.

Lemma custom_token_step_witness :
  test_step (get_firebase_custom_token (initiate_endpoint (fun _ => Ok JNull) signer)
               "test-device-1")
  = (Some (JStr ("jwt-for-" ++ dquote ++ "test-device-1" ++ dquote)), true).
Proof.
  refine (proj2 (custom_token_step (fun _ => Ok JNull) signer "test-device-1" eq_refl) _).
  discriminate.
Defined.

Lemma fingerprint_ignores_key_order_witness :
  generate_device_id sample_request = generate_device_id sample_request_reordered.
Proof.
  apply (fingerprint_ignores_key_order sample_request sample_request_reordered
           (JDict [("serial", JStr "ACCC8E000001"); ("model", JStr "Q1656")])
           (JDict [("model", JStr "Q1656"); ("serial", JStr "ACCC8E000001")]));
    try reflexivity.
  apply (same_dict _ [("model", JStr "Q1656"); ("serial", JStr "ACCC8E000001")]).
  - simpl. apply NoDup_cons. split; [|apply NoDup_singleton].
    intros Hin. inversion Hin as [|? ? ? Hin']; inversion Hin'.
  - apply perm_swap.
  - repeat constructor.
Defined.

(** ** The upstream call and the reach of a request *)

(** X23: the upstream call reports a failure with one of three fixed texts,
    whatever the exception says, and then counts no tokens; it reports
    success only when the upstream answer is a JSON object whose
    [usageMetadata], if present, is an object, and then passes that answer
    on unchanged with its [totalTokenCount], or 0 without one. *)
Theorem proxy_to_gemini_outcomes (E : Env) (request_data : json) (api_key : string) :
  match proxy_to_gemini E request_data api_key with
  | ProxyErr error =>
      In error ["Request timeout"; "API request failed"; "Internal error"]
      /\ proxy_tokens (proxy_to_gemini E request_data api_key) = JInt 0
  | ProxyOk response tokens =>
      exists kv usage_metadata,
        response = JDict kv
        /\ requests_post E request_data api_key = PostJson response
        /\ dict_get kv "usageMetadata" (JDict []) = JDict usage_metadata
        /\ tokens = dict_get usage_metadata "totalTokenCount" (JInt 0)
  end.
Proof.
  unfold proxy_to_gemini.
  destruct request_data; try (simpl; auto 6; fail).
  destruct (requests_post E (JDict kv) api_key) as [[]|[| | | | |kv']] eqn:Hpost;
    try (simpl; auto 6; fail).
  destruct (dict_get kv' "usageMetadata" (JDict [])) as [| | | | |um] eqn:Hum;
    try (simpl; auto 6; fail).
  exists kv', um. auto.
Qed.

Lemma track_result_touches_one_device E device_id result st id' :
  id' <> device_id ->
  usage (snd (track_result E device_id result st)) !! id' = usage st !! id'.
Proof.
  intros Hne. unfold track_result. destruct (proxy_tokens result); try reflexivity.
  destruct (track_store_cases E (utcnow_track E) device_id (proxy_success result) n st)
    as [-> | (r & _ & _ & ->)]; [reflexivity|].
  simpl. by rewrite lookup_insert_ne.
Qed.

(** X24: a request reaches the record of its own fingerprint only: whatever
    the handler does, the usage record of every other device id is after the
    request what it was before. *)
Theorem ai_proxy_touches_one_device (L : RateLimits) (E : Env) (request : Request)
    (st : Store) (id' : string) :
  generate_device_id request <> Ok id' ->
  usage (snd (ai_proxy L E request st)) !! id' = usage st !! id'.
Proof.
  intros Hother.
  destruct (classic_validated request) as [(request_data & device_id & Hv) | Hnot].
  2:{ by destruct (ai_proxy_not_validated L E request st Hnot) as [-> _]. }
  assert (Hne : id' <> device_id).
  { intros ->. by destruct Hv as (_ & _ & _ & ?). }
  rewrite (ai_proxy_validated L E request st request_data device_id Hv).
  assert (Hcheck : usage (snd (check_rate_limits L E (utcnow_check E) device_id st)) !! id'
                   = usage st !! id').
  { destruct (check_store_cases L E (utcnow_check E) device_id st) as [-> | [_ ->]];
      [reflexivity|]. simpl. by rewrite lookup_insert_ne. }
  destruct (check_rate_limits L E (utcnow_check E) device_id st)
    as [[[[] message]|e] st1]; simpl in *; try exact Hcheck.
  pose proof (select_keeps_store E st1) as Hsel.
  destruct (get_next_available_key E st1) as [[[[|c rest]|]|e] st2]; simpl in *;
    subst st2; try exact Hcheck.
  by rewrite track_result_touches_one_device.
Qed.

Lemma ai_proxy_touches_one_device_witness :
  usage (snd (ai_proxy RATE_LIMITS calm sample_request sample_store)) !! "f1"
  = usage sample_store !! "f1".
Proof.
  apply ai_proxy_touches_one_device. vm_compute. discriminate.
Defined.
